(** * Query filters: [src/utils/lib/queryFilters/index.ts]

    A shallow embedding of [buildFilterObject], [validateFilterFields] and
    the private helper [stringToObject], together with the parts of the
    ECMAScript runtime they call, and the properties the specification
    states about them. *)

From Stdlib Require Import String Ascii List ZArith NArith Bool Lia.
From Stdlib Require Import Floats.SpecFloat.
Import ListNotations.

Local Open Scope string_scope.
Local Open Scope bool_scope.

(** ** Strings

    A string is the UTF-8 text of the JavaScript string it stands for, one
    [ascii] per byte.  Every separator the source looks for is an ASCII
    character, and an ASCII byte never occurs inside a longer UTF-8
    sequence, so splitting on bytes is splitting on characters. *)

Module Str.

Definition code (c : ascii) : N := N_of_ascii c.

Fixpoint rev_append (s acc : string) : string :=
  match s with
  | EmptyString => acc
  | String c rest => rev_append rest (String c acc)
  end.

Definition rev (s : string) : string := rev_append s EmptyString.

(** The characters [String.prototype.trim] and the string-to-number
    conversion strip: WhiteSpace and LineTerminator of ECMA-262.  One byte:
    TAB, LF, VT, FF, CR, SP.  Two bytes: U+00A0.  Three bytes: U+1680,
    U+2000..U+200A, U+2028, U+2029, U+202F, U+205F, U+3000, U+FEFF. *)
Definition white1 (a : N) : bool :=
  ((9 <=? a) && (a <=? 13) || (a =? 32))%N.

Definition white2 (a b : N) : bool :=
  ((a =? 194) && (b =? 160))%N.

Definition white3 (a b c : N) : bool :=
  ((a =? 225) && (b =? 154) && (c =? 128)
   || (a =? 226) && (b =? 128)
      && ((128 <=? c) && (c <=? 138) || (c =? 168) || (c =? 169) || (c =? 175))
   || (a =? 226) && (b =? 129) && (c =? 159)
   || (a =? 227) && (b =? 128) && (c =? 128)
   || (a =? 239) && (b =? 187) && (c =? 191))%N.

(** Drops the white space at the front of [s].  With [backwards] the string
    is read from its last byte, so the bytes of a character come in
    reverse. *)
Fixpoint dropWhite (backwards : bool) (s : string) : string :=
  match s with
  | String a r1 =>
      if white1 (code a) then dropWhite backwards r1
      else
        match r1 with
        | String b r2 =>
            if (if backwards then white2 (code b) (code a)
                else white2 (code a) (code b))
            then dropWhite backwards r2
            else
              match r2 with
              | String c r3 =>
                  if (if backwards then white3 (code c) (code b) (code a)
                      else white3 (code a) (code b) (code c))
                  then dropWhite backwards r3
                  else s
              | EmptyString => s
              end
        | EmptyString => s
        end
  | EmptyString => s
  end.

Definition trimStart (s : string) : string := dropWhite false s.
Definition trimEnd (s : string) : string := rev (dropWhite true (rev s)).

(** [s.trim()] *)
Definition trim (s : string) : string := trimEnd (trimStart s).

(** [s.split(sep)] for a one-character separator: never an empty list. *)
Fixpoint split (sep : ascii) (s : string) : list string :=
  match s with
  | EmptyString => [EmptyString]
  | String c rest =>
      if Ascii.eqb c sep then EmptyString :: split sep rest
      else
        match split sep rest with
        | item :: items => String c item :: items
        | [] => [String c EmptyString]
        end
  end.

(** [s.includes(c)] for a one-character needle. *)
Fixpoint includes (c : ascii) (s : string) : bool :=
  match s with
  | EmptyString => false
  | String c' rest => Ascii.eqb c' c || includes c rest
  end.

(** [s.replace(/^\{/, "")] *)
Definition replace_leading_brace (s : string) : string :=
  match s with
  | String "{" rest => rest
  | _ => s
  end.

(** [s.replace(/\}$/, "")]: [$] has no multiline flag, it matches at the
    very end only. *)
Fixpoint replace_trailing_brace (s : string) : string :=
  match s with
  | EmptyString => EmptyString
  | String c EmptyString => if Ascii.eqb c "}" then EmptyString else s
  | String c rest => String c (replace_trailing_brace rest)
  end.

Definition is_digit (c : ascii) : bool :=
  ((48 <=? code c) && (code c <=? 57))%N.

Definition digit_value (c : ascii) : N := (code c - 48)%N.

End Str.

(** ** Numbers

    A Number is an IEEE 754 binary64 value, held as the Standard Library's
    [spec_float] at precision 53 and maximal exponent 1024. *)

Module Num.

Definition prec : Z := 53.
Definition emax : Z := 1024.

Definition NaN : spec_float := S754_nan.

(** The Number nearest to the integer [z]. *)
Definition of_Z (z : Z) : spec_float := binary_normalize prec emax z 0 false.

(** The Number nearest to [m * 10 ^ e], ties to even, with the sign
    [negative].  A negative [e] divides: the quotient is taken with enough
    extra bits and the remainder is handed to the rounding as a location. *)
Definition of_decimal (negative : bool) (m : N) (e : Z) : spec_float :=
  match m with
  | N0 => S754_zero negative
  | Npos p =>
      if (0 <=? e)%Z
      then binary_round prec emax negative (p * Z.to_pos (10 ^ e)) 0
      else
        let d := (10 ^ (- e))%Z in
        let k := (prec + 2 + Zdigits2 d)%Z in
        let n := (Zpos p * 2 ^ k)%Z in
        let q := (n / d)%Z in
        let r := (n mod d)%Z in
        let loc := if (r =? 0)%Z then loc_Exact
                   else loc_Inexact (Z.compare (2 * r) d) in
        binary_round_aux prec emax negative q (- k) loc
  end.

(** The global [isNaN] on a Number. *)
Definition isNaN (n : spec_float) : bool :=
  match n with
  | S754_nan => true
  | _ => false
  end.

(** [ToBoolean] of a Number: false for [+0], [-0] and [NaN]. *)
Definition truthy (n : spec_float) : bool :=
  match n with
  | S754_zero _ | S754_nan => false
  | _ => true
  end.

(** Reads digits of the base [radix] (letters count from ten) off the
    front of [s]: their value, how many there were, and the rest. *)
Definition digit_of (radix : N) (c : ascii) : option N :=
  let a := Str.code c in
  let v := if ((48 <=? a) && (a <=? 57))%N then Some (a - 48)%N
           else if ((97 <=? a) && (a <=? 122))%N then Some (a - 87)%N
           else if ((65 <=? a) && (a <=? 90))%N then Some (a - 55)%N
           else None in
  match v with
  | Some d => if (d <? radix)%N then Some d else None
  | None => None
  end.

Fixpoint digits (radix : N) (s : string) (acc : N) (count : nat)
  : N * nat * string :=
  match s with
  | String c rest =>
      match digit_of radix c with
      | Some d => digits radix rest (acc * radix + d)%N (S count)
      | None => (acc, count, s)
      end
  | EmptyString => (acc, count, s)
  end.

(** NonDecimalIntegerLiteral after its prefix: digits up to the end. *)
Definition integer_literal (radix : N) (s : string) : spec_float :=
  match digits radix s 0%N 0%nat with
  | (v, S _, EmptyString) => of_Z (Z.of_N v)
  | _ => NaN
  end.

(** ExponentPart, or nothing: the exponent and the rest; [None] when an
    exponent indicator is not followed by digits. *)
Definition exponent_part (s : string) : option (Z * string) :=
  match s with
  | String c rest =>
      if Ascii.eqb c "e" || Ascii.eqb c "E" then
        let '(negative, rest) :=
          match rest with
          | String "+" r => (false, r)
          | String "-" r => (true, r)
          | _ => (false, rest)
          end in
        match digits 10 rest 0%N 0%nat with
        | (v, S _, rest') =>
            Some (if negative then (- Z.of_N v)%Z else Z.of_N v, rest')
        | _ => None
        end
      else Some (0%Z, s)
  | EmptyString => Some (0%Z, s)
  end.

(** StrUnsignedDecimalLiteral other than [Infinity]: digits with an
    optional fraction and exponent, at least one digit before the
    exponent. *)
Definition unsigned_decimal (negative : bool) (s : string) : spec_float :=
  let '(int, int_count, rest) := digits 10 s 0%N 0%nat in
  let '(mantissa, frac_count, rest) :=
    match rest with
    | String "." r =>
        let '(m, n, r') := digits 10 r int 0%nat in (m, n, r')
    | _ => (int, 0%nat, rest)
    end in
  match (int_count + frac_count)%nat with
  | O => NaN
  | S _ =>
      match exponent_part rest with
      | Some (e, EmptyString) =>
          of_decimal negative mantissa (e - Z.of_nat frac_count)
      | _ => NaN
      end
  end.

(** StrDecimalLiteral: an optional sign, then [Infinity] or digits. *)
Definition decimal_literal (s : string) : spec_float :=
  let '(negative, rest) :=
    match s with
    | String "+" r => (false, r)
    | String "-" r => (true, r)
    | _ => (false, s)
    end in
  if rest =? "Infinity" then S754_infinity negative
  else unsigned_decimal negative rest.

(** [Number(s)] on a string (StringToNumber): white space is trimmed, the
    empty string is [+0], what is not a StringNumericLiteral is [NaN]. *)
Definition Number (s : string) : spec_float :=
  match Str.trim s with
  | EmptyString => S754_zero false
  | String "0" (String x rest) as t =>
      if Ascii.eqb x "x" || Ascii.eqb x "X" then integer_literal 16 rest
      else if Ascii.eqb x "o" || Ascii.eqb x "O" then integer_literal 8 rest
      else if Ascii.eqb x "b" || Ascii.eqb x "B" then integer_literal 2 rest
      else decimal_literal t
  | t => decimal_literal t
  end.

End Num.

(** ** Values

    The values that reach the three functions.  A filter holds data: what
    [JSON.parse] returns and what [stringToObject] builds.  [VFunction]
    stands for the constructors a schema definition names ([String],
    [Number], ...).  A Date carries its time value in milliseconds, [None]
    for an invalid Date.  An ordinary object carries its prototype ([None]
    for [Object.prototype], [Some VNull] for no prototype) and its own
    properties, all enumerable data properties, in the order
    OrdinaryOwnPropertyKeys lists them. *)

#[warnings="-register-all"]
Inductive JSValue : Type :=
| VUndefined
| VNull
| VBoolean (b : bool)
| VNumber (n : spec_float)
| VString (s : string)
| VFunction (name : string)
| VDate (tv : option Z)
| VArray (elements : list JSValue)
| VObject (prototype : option JSValue) (properties : list (string * JSValue)).

Definition Properties : Type := list (string * JSValue).

(** [{}] and [{ k1: v1, ... }] *)
Definition object (properties : Properties) : JSValue :=
  VObject None properties.

Inductive Exception : Type :=
| TypeError (message : string)
| Error (message : string).

(** What a call does: it returns a value or throws. *)
Inductive Result (A : Type) : Type :=
| Return (a : A)
| Throw (e : Exception).

Arguments Return {A} a.
Arguments Throw {A} e.

Definition typeof (v : JSValue) : string :=
  match v with
  | VUndefined => "undefined"
  | VBoolean _ => "boolean"
  | VNumber _ => "number"
  | VString _ => "string"
  | VFunction _ => "function"
  | VNull | VDate _ | VArray _ | VObject _ _ => "object"
  end.

Definition ToBoolean (v : JSValue) : bool :=
  match v with
  | VUndefined | VNull => false
  | VBoolean b => b
  | VNumber n => Num.truthy n
  | VString s => negb (s =? "")
  | VFunction _ | VDate _ | VArray _ | VObject _ _ => true
  end.

(** ** Properties *)

Module Obj.

(** An array index is the canonical decimal text of an integer below
    [2^32 - 1]: such keys come first among the keys of an object, in
    ascending order. *)
Definition array_index (key : string) : option N :=
  match key with
  | EmptyString => None
  | String "0" (String _ _) => None
  | _ =>
      match Num.digits 10 key 0%N 0%nat with
      | (i, _, EmptyString) => if (i <? 4294967295)%N then Some i else None
      | _ => None
      end
  end.

Fixpoint lookup (key : string) (props : Properties) : option JSValue :=
  match props with
  | [] => None
  | (k, v) :: rest => if k =? key then Some v else lookup key rest
  end.

Definition has_own (props : Properties) (key : string) : bool :=
  match lookup key props with
  | Some _ => true
  | None => false
  end.

Definition keys (props : Properties) : list string := map fst props.

(** The value of an existing own property changes in place. *)
Fixpoint update (key : string) (v : JSValue) (props : Properties)
  : Properties :=
  match props with
  | [] => []
  | (k, w) :: rest =>
      if k =? key then (k, v) :: rest else (k, w) :: update key v rest
  end.

(** A new array-index key goes before the first key that is no array index
    or a larger one. *)
Fixpoint insert_index (i : N) (key : string) (v : JSValue)
  (props : Properties) : Properties :=
  match props with
  | [] => [(key, v)]
  | (k, w) :: rest =>
      match array_index k with
      | Some j =>
          if (i <? j)%N then (key, v) :: props
          else (k, w) :: insert_index i key v rest
      | None => (key, v) :: props
      end
  end.

(** CreateDataProperty on the own properties: what an object literal with a
    computed key and [JSON.parse] do with a key, [__proto__] included. *)
Definition define (key : string) (v : JSValue) (props : Properties)
  : Properties :=
  if has_own props key then update key v props
  else
    match array_index key with
    | Some i => insert_index i key v props
    | None => (props ++ [(key, v)])%list
    end.

(** Whether an assignment to [__proto__] that found no own property
    reaches the accessor of [Object.prototype] through the prototype [o]:
    not when a data property of that name sits on the chain, and not when
    the chain ends in null. *)
Fixpoint gives_proto_accessor (o : JSValue) : bool :=
  match o with
  | VNull => false
  | VObject prototype props =>
      if has_own props "__proto__" then false
      else
        match prototype with
        | Some parent => gives_proto_accessor parent
        | None => true
        end
  | _ => true
  end.

Definition reaches_proto_accessor (prototype : option JSValue) : bool :=
  match prototype with
  | Some parent => gives_proto_accessor parent
  | None => true
  end.

Definition is_object_or_null (v : JSValue) : bool :=
  match v with
  | VNull | VFunction _ | VDate _ | VArray _ | VObject _ _ => true
  | _ => false
  end.

(** [o[key] = v] on an ordinary object [o].  An own property is updated.
    Otherwise the key [__proto__] normally reaches the accessor inherited
    from [Object.prototype], which replaces the prototype when [v] is an
    object or null and does nothing for another value; any other key
    becomes a new own property.  The receivers in this file are the fresh
    objects the functions create. *)
Definition Set_ (o : JSValue) (key : string) (v : JSValue) : JSValue :=
  match o with
  | VObject prototype props =>
      if has_own props key then VObject prototype (update key v props)
      else if (key =? "__proto__") && reaches_proto_accessor prototype then
        if is_object_or_null v then VObject (Some v) props else o
      else VObject prototype (define key v props)
  | _ => o
  end.

Fixpoint text_of_pos_digits (fuel : nat) (n : N) (acc : string) : string :=
  match fuel with
  | O => acc
  | S fuel' =>
      let acc' := String (ascii_of_N (48 + n mod 10)) acc in
      if (n <? 10)%N then acc' else text_of_pos_digits fuel' (n / 10) acc'
  end.

(** The decimal text of an index. *)
Definition index_text (n : nat) : string :=
  text_of_pos_digits (S n) (N.of_nat n) EmptyString.

(** [o[key]]: the own property, else the one the prototype chain gives.
    The members of the built-in prototypes are left out: the source reads
    a filter with it, under the keys a [for-in] over that filter gave
    ([schema_field] below reads a schema). *)
Fixpoint Get (o : JSValue) (key : string) : JSValue :=
  match o with
  | VObject prototype props =>
      match lookup key props with
      | Some v => v
      | None =>
          match prototype with
          | Some parent => Get parent key
          | None => VUndefined
          end
      end
  | VArray elements =>
      match array_index key with
      | Some i => nth (N.to_nat i) elements VUndefined
      | None =>
          if key =? "length"
          then VNumber (Num.of_Z (Z.of_nat (length elements)))
          else VUndefined
      end
  | _ => VUndefined
  end.

(** The own keys of a value, the ones that are not enumerable included. *)
Definition own_keys (o : JSValue) : list string :=
  match o with
  | VObject _ props => keys props
  | VArray elements =>
      (map index_text (seq 0 (length elements)) ++ ["length"])%list
  | VFunction _ => ["length"; "name"; "prototype"]
  | _ => []
  end.

Definition own_enumerable_keys (o : JSValue) : list string :=
  match o with
  | VObject _ props => keys props
  | VArray elements => map index_text (seq 0 (length elements))
  | _ => []
  end.

Definition mem (key : string) (l : list string) : bool :=
  existsb (String.eqb key) l.

(** The keys [for (const key in o)] visits (EnumerateObjectProperties): the
    own enumerable keys, then those of the prototype chain that no own key
    hides. *)
Fixpoint for_in (o : JSValue) : list string :=
  match o with
  | VObject prototype props =>
      (keys props ++
       match prototype with
       | Some parent =>
           filter (fun k => negb (mem k (keys props))) (for_in parent)
       | None => []
       end)%list
  | _ => own_enumerable_keys o
  end.

(** ['q' in o] for an object [o]; no built-in prototype has a member named
    like the marker the source asks for. *)
Fixpoint HasProperty (o : JSValue) (key : string) : bool :=
  match o with
  | VObject prototype props =>
      has_own props key ||
      match prototype with
      | Some parent => HasProperty parent key
      | None => false
      end
  | _ => mem key (own_keys o)
  end.

End Obj.

(** ** [JSON.parse]

    The JSON grammar on a text: one value between optional white space.
    [None] stands for the SyntaxError a text outside the grammar raises. *)

Module JSON.

Definition quote : ascii := ascii_of_N 34.
Definition backslash : ascii := ascii_of_N 92.

Fixpoint skip_ws (s : string) : string :=
  match s with
  | String c rest =>
      let a := Str.code c in
      if ((a =? 32) || (a =? 9) || (a =? 10) || (a =? 13))%N
      then skip_ws rest else s
  | EmptyString => s
  end.

(** The UTF-8 bytes of a code point; a lone surrogate is written out like
    any other three-byte code point. *)
Definition utf8 (cp : N) : string :=
  let byte (n : N) := ascii_of_N n in
  let cont (n : N) := byte (128 + n mod 64)%N in
  if (cp <? 128)%N then String (byte cp) EmptyString
  else if (cp <? 2048)%N then
    String (byte (192 + cp / 64)%N) (String (cont cp) EmptyString)
  else if (cp <? 65536)%N then
    String (byte (224 + cp / 4096)%N)
      (String (cont (cp / 64)%N) (String (cont cp) EmptyString))
  else
    String (byte (240 + cp / 262144)%N)
      (String (cont (cp / 4096)%N)
         (String (cont (cp / 64)%N) (String (cont cp) EmptyString))).

(** Four hexadecimal digits: the code unit of a [\u] escape. *)
Definition hex4 (s : string) : option (N * string) :=
  match s with
  | String a (String b (String c (String d rest))) =>
      match Num.digit_of 16 a, Num.digit_of 16 b,
            Num.digit_of 16 c, Num.digit_of 16 d with
      | Some x, Some y, Some z, Some w =>
          Some (((x * 16 + y) * 16 + z) * 16 + w, rest)%N
      | _, _, _, _ => None
      end
  | _ => None
  end.

Definition simple_escape (c : ascii) : option ascii :=
  if Ascii.eqb c quote then Some quote
  else if Ascii.eqb c backslash then Some backslash
  else if Ascii.eqb c "/" then Some "/"%char
  else if Ascii.eqb c "b" then Some (ascii_of_N 8)
  else if Ascii.eqb c "f" then Some (ascii_of_N 12)
  else if Ascii.eqb c "n" then Some (ascii_of_N 10)
  else if Ascii.eqb c "r" then Some (ascii_of_N 13)
  else if Ascii.eqb c "t" then Some (ascii_of_N 9)
  else None.

(** The code point of an escaped code unit [unit] and the text left: a
    high surrogate followed by an escaped low surrogate makes one code
    point with it. *)
Definition escaped_code_point (unit : N) (rest : string) : N * string :=
  if ((55296 <=? unit) && (unit <=? 56319))%N then
    match rest with
    | String b (String "u" r) =>
        if Ascii.eqb b backslash then
          match hex4 r with
          | Some (low, r') =>
              if ((56320 <=? low) && (low <=? 57343))%N
              then (65536 + (unit - 55296) * 1024 + (low - 56320), r')%N
              else (unit, rest)
          | None => (unit, rest)
          end
        else (unit, rest)
    | _ => (unit, rest)
    end
  else (unit, rest).

(** The characters of a string after its opening quote, up to the closing
    one; [acc] holds the bytes read so far, last first. *)
Fixpoint string_body (fuel : nat) (s acc : string) : option (string * string) :=
  match fuel with
  | O => None
  | S fuel' =>
      match s with
      | EmptyString => None
      | String c rest =>
          if Ascii.eqb c quote then Some (Str.rev acc, rest)
          else if Ascii.eqb c backslash then
            match rest with
            | String "u" rest' =>
                match hex4 rest' with
                | Some (unit, rest'') =>
                    let '(cp, rest3) := escaped_code_point unit rest'' in
                    string_body fuel' rest3 (Str.rev_append (utf8 cp) acc)
                | None => None
                end
            | String e rest' =>
                match simple_escape e with
                | Some ch => string_body fuel' rest' (String ch acc)
                | None => None
                end
            | EmptyString => None
            end
          else if (Str.code c <? 32)%N then None
          else string_body fuel' rest (String c acc)
      end
  end.

Definition string_token (s : string) : option (string * string) :=
  string_body (S (String.length s)) s EmptyString.

(** A number: [-]? int frac? exp?, with no leading zero before a digit. *)
Definition number_token (s : string) : option (spec_float * string) :=
  let '(negative, s1) :=
    match s with
    | String "-" r => (true, r)
    | _ => (false, s)
    end in
  let int : option (N * string) :=
    match s1 with
    | String "0" r => Some (0%N, r)
    | _ =>
        match Num.digits 10 s1 0%N 0%nat with
        | (v, S _, r) => Some (v, r)
        | _ => None
        end
    end in
  match int with
  | None => None
  | Some (v, r) =>
      let frac : option (N * nat * string) :=
        match r with
        | String "." r' =>
            match Num.digits 10 r' v 0%nat with
            | (m, S n, r'') => Some (m, S n, r'')
            | _ => None
            end
        | _ => Some (v, 0%nat, r)
        end in
      match frac with
      | None => None
      | Some (m, n, r') =>
          match Num.exponent_part r' with
          | Some (e, r'') =>
              Some (Num.of_decimal negative m (e - Z.of_nat n), r'')
          | None => None
          end
      end
  end.

(** The literal [word] at the front of [s]. *)
Fixpoint literal (word s : string) : option string :=
  match word, s with
  | EmptyString, _ => Some s
  | String a word', String b s' =>
      if Ascii.eqb a b then literal word' s' else None
  | _, EmptyString => None
  end.

(** The members of an object after the opening brace, [s] at the first
    key.  A repeated key keeps its place and takes the later value. *)
Fixpoint members (value : string -> option (JSValue * string))
  (fuel : nat) (s : string) (props : Properties)
  : option (JSValue * string) :=
  match fuel with
  | O => None
  | S fuel' =>
      match s with
      | String q rest =>
          if Ascii.eqb q quote then
            match string_token rest with
            | Some (key, r1) =>
                match skip_ws r1 with
                | String ":" r2 =>
                    match value r2 with
                    | Some (v, r3) =>
                        let props' := Obj.define key v props in
                        match skip_ws r3 with
                        | String "," r4 =>
                            members value fuel' (skip_ws r4) props'
                        | String "}" r4 => Some (object props', r4)
                        | _ => None
                        end
                    | None => None
                    end
                | _ => None
                end
            | None => None
            end
          else None
      | EmptyString => None
      end
  end.

(** The elements of an array after the opening bracket, last first in
    [acc]. *)
Fixpoint elements (value : string -> option (JSValue * string))
  (fuel : nat) (s : string) (acc : list JSValue)
  : option (JSValue * string) :=
  match fuel with
  | O => None
  | S fuel' =>
      match value s with
      | Some (v, r) =>
          match skip_ws r with
          | String "," r' => elements value fuel' r' (v :: acc)
          | String "]" r' => Some (VArray (List.rev (v :: acc)), r')
          | _ => None
          end
      | None => None
      end
  end.

Fixpoint value (fuel : nat) (s : string) : option (JSValue * string) :=
  match fuel with
  | O => None
  | S fuel' =>
      match skip_ws s with
      | EmptyString => None
      | String c rest as t =>
          if Ascii.eqb c "{" then
            match skip_ws rest with
            | String "}" r => Some (object [], r)
            | s' => members (value fuel') fuel' s' []
            end
          else if Ascii.eqb c "[" then
            match skip_ws rest with
            | String "]" r => Some (VArray [], r)
            | s' => elements (value fuel') fuel' s' []
            end
          else if Ascii.eqb c quote then
            match string_token rest with
            | Some (str, r) => Some (VString str, r)
            | None => None
            end
          else if Ascii.eqb c "t" then
            option_map (pair (VBoolean true)) (literal "true" t)
          else if Ascii.eqb c "f" then
            option_map (pair (VBoolean false)) (literal "false" t)
          else if Ascii.eqb c "n" then
            option_map (pair VNull) (literal "null" t)
          else
            match number_token t with
            | Some (n, r) => Some (VNumber n, r)
            | None => None
            end
      end
  end.

(** [JSON.parse(text)].  The length of the text bounds the depth of its
    nesting and the number of members of any of its objects and arrays, so
    the fuel never runs out on a text of the grammar. *)
Definition parse (text : string) : option JSValue :=
  match value (S (String.length text)) text with
  | Some (v, rest) =>
      match skip_ws rest with
      | EmptyString => Some v
      | _ => None
      end
  | None => None
  end.

End JSON.

(** ** A reference [Date.parse]

    ECMA-262 fixes what [Date.parse] returns on its Date Time String Format
    and lets a host answer NaN everywhere else.  [ISODate.parse] is that
    minimal host, with UTC as its local time; the examples run on it. *)

Module ISODate.

Fixpoint fixed_digits (width : nat) (s : string) (acc : N)
  : option (N * string) :=
  match width with
  | O => Some (acc, s)
  | S width' =>
      match s with
      | String c rest =>
          if Str.is_digit c
          then fixed_digits width' rest (acc * 10 + Str.digit_value c)%N
          else None
      | EmptyString => None
      end
  end.

Definition leap (y : Z) : bool :=
  ((y mod 4 =? 0) && negb (y mod 100 =? 0) || (y mod 400 =? 0))%Z.

Definition days_in_month (y : Z) (m : N) : N :=
  (if m =? 2 then (if leap y then 29 else 28)
   else if (m =? 4) || (m =? 6) || (m =? 9) || (m =? 11) then 30
   else 31)%N.

(** Days from 1970-01-01 to the given day of the proleptic Gregorian
    calendar. *)
Definition days_from_civil (y : Z) (m d : N) : Z :=
  let y' := (if (m <=? 2)%N then y - 1 else y)%Z in
  let era := (y' / 400)%Z in
  let yoe := (y' - era * 400)%Z in
  let mp := ((Z.of_N m + 9) mod 12)%Z in
  let doy := ((153 * mp + 2) / 5 + Z.of_N d - 1)%Z in
  let doe := (yoe * 365 + yoe / 4 - yoe / 100 + doy)%Z in
  (era * 146097 + doe - 719468)%Z.

Definition year (s : string) : option (Z * string) :=
  match s with
  | String "+" r =>
      match fixed_digits 6 r 0%N with
      | Some (y, r') => Some (Z.of_N y, r')
      | None => None
      end
  | String "-" r =>
      match fixed_digits 6 r 0%N with
      | Some (N0, _) => None
      | Some (y, r') => Some ((- Z.of_N y)%Z, r')
      | None => None
      end
  | _ =>
      match fixed_digits 4 s 0%N with
      | Some (y, r') => Some (Z.of_N y, r')
      | None => None
      end
  end.

(** [sep] and two digits, when [sep] is next. *)
Definition field (sep : ascii) (default : N) (s : string)
  : option (N * bool * string) :=
  match s with
  | String c r =>
      if Ascii.eqb c sep then
        match fixed_digits 2 r 0%N with
        | Some (v, r') => Some (v, true, r')
        | None => None
        end
      else Some (default, false, s)
  | EmptyString => Some (default, false, s)
  end.

(** [Z], a signed [HH:mm], or nothing: the offset in minutes. *)
Definition offset (s : string) : option Z :=
  match s with
  | EmptyString => Some 0%Z
  | String "Z" EmptyString => Some 0%Z
  | String c r =>
      if Ascii.eqb c "+" || Ascii.eqb c "-" then
        match fixed_digits 2 r 0%N with
        | Some (h, String ":" r') =>
            match fixed_digits 2 r' 0%N with
            | Some (m, EmptyString) =>
                if ((h <? 24) && (m <? 60))%N then
                  let minutes := Z.of_N (h * 60 + m) in
                  Some (if Ascii.eqb c "-" then (- minutes)%Z else minutes)
                else None
            | _ => None
            end
        | _ => None
        end
      else None
  end.

(** The time of day after [T], less the offset, in milliseconds. *)
Definition time (s : string) : option Z :=
  match fixed_digits 2 s 0%N with
  | Some (h, String ":" r) =>
      match fixed_digits 2 r 0%N with
      | Some (mi, r1) =>
          match field ":" 0%N r1 with
          | Some (sec, has_sec, r2) =>
              let millis : option (N * string) :=
                match r2 with
                | String "." r3 =>
                    if has_sec then fixed_digits 3 r3 0%N else None
                | _ => Some (0%N, r2)
                end in
              match millis with
              | Some (ms, r4) =>
                  match offset r4 with
                  | Some off =>
                      if ((h <? 24) && (mi <? 60) && (sec <? 60)
                          || (h =? 24) && (mi =? 0) && (sec =? 0)
                             && (ms =? 0))%N
                      then Some (Z.of_N (((h * 60 + mi) * 60 + sec) * 1000 + ms)
                                 - off * 60000)%Z
                      else None
                  | None => None
                  end
              | None => None
              end
          | None => None
          end
      | None => None
      end
  | _ => None
  end.

(** [Date.parse(s)]: the time value, [None] for NaN. *)
Definition parse (s : string) : option Z :=
  match year s with
  | Some (y, r) =>
      match field "-" 1%N r with
      | Some (m, has_month, r1) =>
          match (if has_month then field "-" 1%N r1
                 else Some (1%N, false, r1)) with
          | Some (d, _, r2) =>
              if ((1 <=? m) && (m <=? 12) && (1 <=? d)
                  && (d <=? days_in_month y m))%N then
                let start := (days_from_civil y m d * 86400000)%Z in
                let tv : option Z :=
                  match r2 with
                  | EmptyString => Some start
                  | String "T" r3 =>
                      match time r3 with
                      | Some t => Some (start + t)%Z
                      | None => None
                      end
                  | _ => None
                  end in
                match tv with
                | Some t =>
                    if (Z.abs t <=? 8640000000000000)%Z then Some t else None
                | None => None
                end
              else None
          | None => None
          end
      | None => None
      end
  | None => None
  end.

End ISODate.

(** ** [buildFilterObject] *)

(** [filterQuery], "the raw filter query string (parsed from req.query)":
    absent, null or a text.  The parameter is typed [any]; a value of
    another kind [JSON.parse] would first convert to a text, a conversion
    that is no part of this development, whose statements on
    [buildFilterObject] are about these three kinds of query. *)
Inductive FilterQuery : Type :=
| QueryUndefined
| QueryNull
| QueryText (text : string).

(** [if (filterQuery)] *)
Definition query_truthy (filterQuery : FilterQuery) : bool :=
  match filterQuery with
  | QueryText text => ToBoolean (VString text)
  | QueryUndefined | QueryNull => false
  end.

Definition JSON_parse (filterQuery : FilterQuery) : option JSValue :=
  match filterQuery with
  | QueryText text => JSON.parse text
  | QueryUndefined => JSON.parse "undefined"
  | QueryNull => JSON.parse "null"
  end.

Definition InvalidFilterFormat : Exception :=
  Error "Invalid filter query format".

Definition buildFilterObject (filterQuery : FilterQuery) : Result JSValue :=
  let filterObject := object [] in
  if query_truthy filterQuery then
    match JSON_parse filterQuery with
    | Some parsedFilter => Return parsedFilter
    | None => Throw InvalidFilterFormat
    end
  else Return filterObject.

(** ** [stringToObject] and [validateFilterFields] *)

(** A Mongoose schema, as far as the source reads it: [obj] holds the own
    properties of the definition object the schema was built from, an
    object literal, with [Object.prototype] behind it. *)
Record Schema : Type := { obj : Properties }.

(** The lines written by [console.warn], oldest first. *)
Definition Console : Type := list string.

Section QueryFilters.

(** [Date.parse] of the host: the time value of a text, [None] for NaN.
    Outside the ISO format the answer is the host's own, so the functions
    take it as they find it. *)
Variable Date_parse : string -> option Z.

(** [if (Date.parse(operatorValue))]: NaN and zero are falsy. *)
Definition time_truthy (tv : option Z) : bool :=
  match tv with
  | Some t => negb (t =? 0)%Z
  | None => false
  end.

(** [new Date(text)] *)
Definition new_Date (text : string) : JSValue := VDate (Date_parse text).

(** The value stored for a [value] that includes a colon.  [None] is for
    a split of fewer than two items, which such a value never gives
    ([operator_entry_defined] below). *)
Definition operator_entry (value : string) : option JSValue :=
  match map Str.trim (Str.split ":" value) with
  | operator :: operatorValue :: _ =>
      if time_truthy (Date_parse operatorValue)
      then Some (object [(operator, new_Date operatorValue)])
      else Some (object [(operator, VString operatorValue)])
  | _ => None
  end.

(** The value stored for a [value] that includes no colon. *)
Definition plain_entry (value : string) : JSValue :=
  if Num.isNaN (Num.Number value) then VString value
  else VNumber (Num.Number value).

(** What either branch of [if (value.includes(":"))] assigns to
    [result[key]]. *)
Definition entry (value : string) : option JSValue :=
  if Str.includes ":" value then operator_entry value
  else Some (plain_entry value).

(** The body of [for (const pair of pairs)]. *)
Definition parse_pair (result : JSValue) (pair : string) : JSValue :=
  match map Str.trim (Str.split "=" pair) with
  | key :: value :: _ =>
      if ToBoolean (VString key) && ToBoolean (VString value) then
        match entry value with
        | Some assigned => Obj.Set_ result key assigned
        | None => result
        end
      else result
  | _ => result
  end.

Definition stringToObject (str : JSValue) : Result JSValue :=
  if negb (ToBoolean str)
     || match str with VString s => s =? "{}" | _ => false end
  then Return (object [])
  else if typeof str =? "object" then Return str
  else
    match str with
    | VString s =>
        let s := Str.replace_trailing_brace
                   (Str.replace_leading_brace (Str.trim s)) in
        let pairs := Str.split "," s in
        Return (fold_left parse_pair pairs (object []))
    | _ => Throw (TypeError "str.trim is not a function")
    end.

Definition not_queryable (key : string) : string :=
  "Field '" ++ key ++ "' is not queryable.".

Definition is_timestamp (key : string) : bool :=
  (key =? "createdAt") || (key =? "updatedAt").

(** [field && typeof field === 'object' && 'q' in field] *)
Definition has_marker (field : JSValue) : bool :=
  ToBoolean field && (typeof field =? "object") && Obj.HasProperty field "q".

(** [sanitizedFilter[key] = filterObject[key]] *)
Definition copy (filterObject sanitizedFilter : JSValue) (key : string)
  : JSValue :=
  Obj.Set_ sanitizedFilter key (Obj.Get filterObject key).

(** [f.call(this, ...arguments)] for the function value [VFunction name]:
    what it returns, or what it throws.  The functions a schema holds are
    the constructors that name the types of its paths ([String],
    [Number], [Date], ...): their answer depends on the receiver and the
    arguments, and they leave the filter, the schema and the console as
    they are. *)
Variable Call : string -> JSValue -> list JSValue -> Result JSValue.

(** [Object.prototype]: no prototype behind it.  Its members, which no
    [for-in] visits and none of which is named [q], are left out. *)
Definition Object_prototype : JSValue := VObject (Some VNull) [].

Definition Object_prototype_methods : list string :=
  ["__defineGetter__"; "__defineSetter__"; "hasOwnProperty";
   "__lookupGetter__"; "__lookupSetter__"; "isPrototypeOf";
   "propertyIsEnumerable"; "toString"; "valueOf"; "toLocaleString"].

(** [schema.obj[key]]: the path of that name, else what [Object.prototype]
    gives under it. *)
Definition schema_field (schema : Schema) (key : string) : JSValue :=
  match Obj.lookup key (obj schema) with
  | Some field => field
  | None =>
      if key =? "__proto__" then Object_prototype
      else if key =? "constructor" then VFunction "Object"
      else if Obj.mem key Object_prototype_methods then VFunction key
      else VUndefined
  end.

(** [schema.obj.hasOwnProperty(key)].  The method is looked up on the
    definition object: with no path of that name it is the one of
    [Object.prototype], the test for an own property; a path of that name
    hides it, and is called if it is a function, and cannot be called
    otherwise. *)
Definition hasOwnProperty (schema : Schema) (key : string) : Result bool :=
  match Obj.lookup "hasOwnProperty" (obj schema) with
  | None => Return (Obj.has_own (obj schema) key)
  | Some (VFunction name) =>
      match Call name (object (obj schema)) [VString key] with
      | Return answer => Return (ToBoolean answer)
      | Throw e => Throw e
      end
  | Some _ => Throw (TypeError "schema.obj.hasOwnProperty is not a function")
  end.

(** The second test of the loop. *)
Definition queryable (schema : Schema) (key : string) : bool :=
  has_marker (schema_field schema key) || is_timestamp key.

(** The body of [for (const key in filterObject)], on the filter built so
    far and the console. *)
Definition check_key (schema : Schema) (filterObject : JSValue)
  (state : JSValue * Console) (key : string)
  : Result (JSValue * Console) :=
  let '(sanitizedFilter, console) := state in
  match hasOwnProperty schema key with
  | Return own =>
      if own || is_timestamp key then
        let field := schema_field schema key in
        if has_marker field || is_timestamp key then
          Return (copy filterObject sanitizedFilter key, console)
        else Return (sanitizedFilter, (console ++ [not_queryable key])%list)
      else Return state
  | Throw e => Throw e
  end.

(** A loop whose body may throw. *)
Fixpoint for_each {State : Type} (body : State -> string -> Result State)
  (keys : list string) (state : State) : Result State :=
  match keys with
  | [] => Return state
  | key :: rest =>
      match body state key with
      | Return state' => for_each body rest state'
      | Throw e => Throw e
      end
  end.

(** The sanitized filter and what the call wrote to the console. *)
Definition validateFilterFields (filter : JSValue) (schema : Schema)
  : Result (JSValue * Console) :=
  match stringToObject filter with
  | Return filterObject =>
      for_each (check_key schema filterObject)
        (Obj.for_in filterObject) (object [], [])
  | Throw e => Throw e
  end.

(** The keys the loop copies: those for which both tests hold. *)
Definition passes (schema : Schema) (key : string) : bool :=
  match hasOwnProperty schema key with
  | Return own => (own || is_timestamp key) && queryable schema key
  | Throw _ => false
  end.

(** The keys it warns about: those for which the first test holds and the
    second fails. *)
Definition warns (schema : Schema) (key : string) : bool :=
  match hasOwnProperty schema key with
  | Return own => (own || is_timestamp key) && negb (queryable schema key)
  | Throw _ => false
  end.

End QueryFilters.

(** ** The reading of the specification

    The specification has a pair cut at its first [=] and a value at its
    first [:], the second item keeping whatever follows.  [split_first] is
    that cut, for comparison with [Str.split]. *)

Module Spec.

Fixpoint split_first (sep : ascii) (s : string) : list string :=
  match s with
  | EmptyString => [EmptyString]
  | String c rest =>
      if Ascii.eqb c sep then [EmptyString; rest]
      else
        match split_first sep rest with
        | item :: items => String c item :: items
        | [] => [String c EmptyString]
        end
  end.

End Spec.

(** ** A reference for [Call]

    A host for the examples: [String], [Boolean] and [Number] answer as
    the built-in constructors do when called on a text; it has no other
    function to call. *)

Module Host.

Definition call (name : string) (this : JSValue) (arguments : list JSValue)
  : Result JSValue :=
  match arguments with
  | VString s :: _ =>
      if name =? "String" then Return (VString s)
      else if name =? "Boolean" then Return (VBoolean (ToBoolean (VString s)))
      else if name =? "Number" then Return (VNumber (Num.Number s))
      else Throw (TypeError (name ++ " is not a function"))
  | _ => Throw (TypeError (name ++ " is not a function"))
  end.

End Host.

(** ** The format, written

    How a mapping is written in the format [{k1=v1,k2=v2}], for the
    comparison of a mapping with its text. *)

Module Written.






Fixpoint join (items : list string) : string :=
  match items with
  | [] => ""
  | [item] => item
  | item :: rest => item ++ "," ++ join rest
  end.

Definition pair_text (property : string * JSValue) (t : string) : string :=
  fst property ++ "=" ++ t.

Fixpoint pairs (props : Properties) (texts : list string) : list string :=
  match props, texts with
  | property :: props', t :: texts' =>
      pair_text property t :: pairs props' texts'
  | _, _ => []
  end.

(** The text of the mapping with the own properties [props], its values
    written by [texts]. *)
Definition text (props : Properties) (texts : list string) : string :=
  "{" ++ join (pairs props texts) ++ "}".


End Written.

(** A JSON scalar: a Number, a boolean, null or a text. *)
Definition scalar (v : JSValue) : bool :=
  match v with
  | VNumber _ | VBoolean _ | VNull | VString _ => true
  | _ => false
  end.

(** ** Example inputs *)

Module Examples.

(** [{ name: { q: true }, age: {} }] *)
Definition schema : Schema :=
  {| obj := [("name", object [("q", VBoolean true)]); ("age", object [])] |}.

(** [{ name: "Bob", age: 30, secret: "x" }] *)
Definition filter : JSValue :=
  object [("name", VString "Bob"); ("age", VNumber (Num.of_Z 30));
          ("secret", VString "x")].

End Examples.

(** The key a pair assigns to, if it assigns: the first of its items when
    the first two are not empty. *)
Definition pair_key (pair : string) : option string :=
  match map Str.trim (Str.split "=" pair) with
  | key :: value :: _ =>
      if ToBoolean (VString key) && ToBoolean (VString value)
      then Some key else None
  | _ => None
  end.

(** The pairs of a text: [str.trim().replace(...).replace(...).split(",")]. *)
Definition pairs_of (s : string) : list string :=
  Str.split ","
    (Str.replace_trailing_brace (Str.replace_leading_brace (Str.trim s))).

(** The values [stringToObject] stores: a text that is no numeric literal,
    a Number, or an object of one operator whose operand is a text or a
    Date. *)
Definition operand (v : JSValue) : bool :=
  match v with
  | VString _ | VDate _ => true
  | _ => false
  end.

Definition representable (v : JSValue) : bool :=
  match v with
  | VString s => Num.isNaN (Num.Number s)
  | VNumber _ => true
  | VObject None [(_, operandValue)] => operand operandValue
  | _ => false
  end.

Definition all_representable (props : Properties) : Prop :=
  Forall (fun property => representable (snd property) = true) props.

(** What the loop of [stringToObject] keeps true of [result]: an ordinary
    object whose own values are representable. *)
Definition parsed (o : JSValue) : Prop :=
  exists prototype props,
    o = VObject prototype props /\ all_representable props.

(** An ordinary object with the own property [key], of value [v]. *)
Definition holds (o : JSValue) (key : string) (v : JSValue) : Prop :=
  exists prototype props,
    o = VObject prototype props /\ Obj.lookup key props = Some v.

(** An ordinary object, as against an array, a Date or a function. *)
Definition ordinary (o : JSValue) : Prop :=
  exists prototype props, o = VObject prototype props.

(** * Properties *)

(** ** Strings *)

Lemma split_cons (sep : ascii) (s : string) :
  exists item items, Str.split sep s = item :: items.
Proof.
  destruct s as [|c rest]; simpl.
  - eauto.
  - destruct (Ascii.eqb c sep); [eauto|].
    destruct (Str.split sep rest); eauto.
Qed.

(** A text without the separator is one item. *)
Lemma split_without (sep : ascii) (s : string) :
  Str.includes sep s = false -> Str.split sep s = [s].
Proof.
  induction s as [|c rest IH]; simpl; [reflexivity|].
  intros H. apply orb_false_iff in H as [Hc Hrest].
  rewrite Hc, (IH Hrest). reflexivity.
Qed.

(** The first item ends at the first separator, and the split goes on
    behind it. *)
Lemma split_app (sep : ascii) (a b : string) :
  Str.includes sep a = false ->
  Str.split sep (a ++ String sep b) = a :: Str.split sep b.
Proof.
  induction a as [|c rest IH]; simpl; intros H.
  - now rewrite Ascii.eqb_refl.
  - apply orb_false_iff in H as [Hc Hrest].
    rewrite Hc, (IH Hrest). reflexivity.
Qed.

(** A text with the separator splits into two items at least. *)
Lemma split_includes (sep : ascii) (s : string) :
  Str.includes sep s = true ->
  exists a b items, Str.split sep s = a :: b :: items.
Proof.
  induction s as [|c rest IH]; simpl; [discriminate|].
  destruct (Ascii.eqb c sep); simpl; intros H.
  - destruct (split_cons sep rest) as (b & items & ->). eauto.
  - destruct (IH H) as (a & b & items & ->). eauto.
Qed.

Lemma append_length (s t : string) :
  String.length (s ++ t) = (String.length s + String.length t)%nat.
Proof. induction s as [|c s IH]; simpl; [reflexivity | now rewrite IH]. Qed.

Lemma append_inj_tail (t s1 s2 : string) : s1 ++ t = s2 ++ t -> s1 = s2.
Proof.
  revert s2. induction s1 as [|c s1 IH]; intros [|d s2] H; simpl in H.
  - reflexivity.
  - apply (f_equal String.length) in H. simpl in H.
    rewrite append_length in H. lia.
  - apply (f_equal String.length) in H. simpl in H.
    rewrite append_length in H. lia.
  - injection H as -> H. f_equal. now apply IH.
Qed.

(** ** Property assignment *)

Lemma keys_update (key : string) (v : JSValue) (props : Properties) :
  Obj.keys (Obj.update key v props) = Obj.keys props.
Proof.
  induction props as [|[k w] rest IH]; simpl; [reflexivity|].
  destruct (k =? key); simpl; [reflexivity | now rewrite IH].
Qed.

Lemma keys_insert_index (i : N) (key k : string) (v : JSValue)
  (props : Properties) :
  In k (Obj.keys (Obj.insert_index i key v props)) ->
  k = key \/ In k (Obj.keys props).
Proof.
  induction props as [|[k' w] rest IH]; simpl.
  - intros [H|[]]; auto.
  - destruct (Obj.array_index k') as [j|]; [destruct (i <? j)%N|]; simpl;
      intuition auto.
Qed.

Lemma keys_define (key k : string) (v : JSValue) (props : Properties) :
  In k (Obj.keys (Obj.define key v props)) ->
  k = key \/ In k (Obj.keys props).
Proof.
  unfold Obj.define.
  destruct (Obj.has_own props key).
  - rewrite keys_update. auto.
  - destruct (Obj.array_index key) as [i|].
    + apply keys_insert_index.
    + unfold Obj.keys. rewrite map_app, in_app_iff. simpl. intuition auto.
Qed.

(** An assignment adds no own key but its own. *)
Lemma own_keys_Set (o : JSValue) (key k : string) (v : JSValue) :
  In k (Obj.own_keys (Obj.Set_ o key v)) ->
  k = key \/ In k (Obj.own_keys o).
Proof.
  destruct o as [| | | | | | | |prototype props]; simpl; auto.
  destruct (Obj.has_own props key); simpl.
  - rewrite keys_update. auto.
  - destruct ((key =? "__proto__") && Obj.reaches_proto_accessor prototype).
    + destruct (Obj.is_object_or_null v); simpl; auto.
    + simpl. apply keys_define.
Qed.

Lemma lookup_update (key : string) (v : JSValue) (props : Properties) :
  Obj.has_own props key = true ->
  Obj.lookup key (Obj.update key v props) = Some v.
Proof.
  unfold Obj.has_own.
  induction props as [|[k w] rest IH]; simpl; [discriminate|].
  destruct (k =? key) eqn:E; simpl; rewrite E; auto.
Qed.

Lemma lookup_insert_index (i : N) (key : string) (v : JSValue)
  (props : Properties) :
  Obj.lookup key props = None ->
  Obj.lookup key (Obj.insert_index i key v props) = Some v.
Proof.
  induction props as [|[k w] rest IH]; simpl.
  - now rewrite String.eqb_refl.
  - destruct (k =? key) eqn:E; [discriminate|]. intros H.
    destruct (Obj.array_index k) as [j|]; [destruct (i <? j)%N|]; simpl;
      rewrite ?String.eqb_refl, ?E; auto.
Qed.

Lemma lookup_app_new (key : string) (v : JSValue) (props : Properties) :
  Obj.lookup key props = None ->
  Obj.lookup key (props ++ [(key, v)])%list = Some v.
Proof.
  induction props as [|[k w] rest IH]; simpl.
  - now rewrite String.eqb_refl.
  - destruct (k =? key); [discriminate | auto].
Qed.

Lemma lookup_define (key : string) (v : JSValue) (props : Properties) :
  Obj.lookup key (Obj.define key v props) = Some v.
Proof.
  unfold Obj.define.
  destruct (Obj.has_own props key) eqn:E.
  - now apply lookup_update.
  - unfold Obj.has_own in E.
    destruct (Obj.lookup key props) eqn:L; [discriminate|].
    destruct (Obj.array_index key).
    + now apply lookup_insert_index.
    + now apply lookup_app_new.
Qed.

Lemma lookup_update_other (key k : string) (v : JSValue)
  (props : Properties) :
  k <> key -> Obj.lookup k (Obj.update key v props) = Obj.lookup k props.
Proof.
  intros Hk. induction props as [|[k' w] rest IH]; simpl; [reflexivity|].
  destruct (k' =? key) eqn:E; simpl.
  - apply String.eqb_eq in E as ->.
    apply not_eq_sym, String.eqb_neq in Hk. now rewrite Hk.
  - now rewrite IH.
Qed.

Lemma lookup_insert_index_other (i : N) (key k : string) (v : JSValue)
  (props : Properties) :
  k <> key ->
  Obj.lookup k (Obj.insert_index i key v props) = Obj.lookup k props.
Proof.
  intros Hk. apply not_eq_sym, String.eqb_neq in Hk.
  induction props as [|[k' w] rest IH]; simpl.
  - now rewrite Hk.
  - destruct (Obj.array_index k') as [j|]; [destruct (i <? j)%N|]; simpl;
      rewrite ?Hk, ?IH; reflexivity.
Qed.

Lemma lookup_app_other (key k : string) (v : JSValue) (props : Properties) :
  k <> key ->
  Obj.lookup k (props ++ [(key, v)])%list = Obj.lookup k props.
Proof.
  intros Hk. apply not_eq_sym, String.eqb_neq in Hk.
  induction props as [|[k' w] rest IH]; simpl.
  - now rewrite Hk.
  - now rewrite IH.
Qed.

Lemma lookup_define_other (key k : string) (v : JSValue)
  (props : Properties) :
  k <> key -> Obj.lookup k (Obj.define key v props) = Obj.lookup k props.
Proof.
  intros Hk. unfold Obj.define.
  destruct (Obj.has_own props key).
  - now apply lookup_update_other.
  - destruct (Obj.array_index key).
    + now apply lookup_insert_index_other.
    + now apply lookup_app_other.
Qed.

(** An object that [holds] a value under a key has it as an own
    property. *)
Lemma holds_Get (o : JSValue) (key : string) (v : JSValue) :
  holds o key v -> Obj.Get o key = v.
Proof. intros (prototype & props & -> & H). simpl. now rewrite H. Qed.

(** An assignment to another key leaves an own property alone. *)
Lemma holds_Set_other (o : JSValue) (key k : string) (v w : JSValue) :
  k <> key -> holds o k w -> holds (Obj.Set_ o key v) k w.
Proof.
  intros Hk (prototype & props & -> & H). unfold holds. simpl.
  destruct (Obj.has_own props key).
  - do 2 eexists. split; [reflexivity|]. now rewrite lookup_update_other.
  - destruct ((key =? "__proto__") && Obj.reaches_proto_accessor prototype).
    + destruct (Obj.is_object_or_null v); eauto.
    + do 2 eexists. split; [reflexivity|]. now rewrite lookup_define_other.
Qed.

(** An assignment to a key other than [__proto__] makes an own property. *)
Lemma holds_Set (o : JSValue) (key : string) (v : JSValue) :
  ordinary o -> key <> "__proto__" -> holds (Obj.Set_ o key v) key v.
Proof.
  intros (prototype & props & ->) Hkey. unfold holds. simpl.
  apply String.eqb_neq in Hkey.
  destruct (Obj.has_own props key) eqn:E.
  - do 2 eexists. split; [reflexivity|]. now apply lookup_update.
  - rewrite Hkey. simpl. do 2 eexists. split; [reflexivity|].
    apply lookup_define.
Qed.

(** ** The loop of [validateFilterFields] *)

Section Validation.

Variable Date_parse : string -> option Z.
Variable Call : string -> JSValue -> list JSValue -> Result JSValue.
Variable schema : Schema.
Variable filterObject : JSValue.

(** With no path named [hasOwnProperty] the method is the built-in
    test. *)
Lemma hasOwnProperty_builtin (key : string) :
  Obj.lookup "hasOwnProperty" (obj schema) = None ->
  hasOwnProperty Call schema key = Return (Obj.has_own (obj schema) key).
Proof. unfold hasOwnProperty. now intros ->. Qed.

(** With a path of that name that holds no function the method cannot be
    called. *)
Lemma hasOwnProperty_not_callable (field : JSValue) (key : string) :
  Obj.lookup "hasOwnProperty" (obj schema) = Some field ->
  typeof field <> "function" ->
  hasOwnProperty Call schema key
  = Throw (TypeError "schema.obj.hasOwnProperty is not a function").
Proof.
  unfold hasOwnProperty. intros -> H.
  destruct field; try reflexivity. now destruct H.
Qed.

(** When every call of the method returns, the loop copies the keys that
    pass and warns about the keys that [warns] picks, each in the order of
    the enumeration. *)
Lemma for_each_check_key (keys : list string) (state : JSValue * Console) :
  (forall key, In key keys ->
               exists own, hasOwnProperty Call schema key = Return own) ->
  for_each (check_key Call schema filterObject) keys state =
  Return
    (fold_left (copy filterObject)
       (List.filter (passes Call schema) keys) (fst state),
     (snd state
      ++ map not_queryable (List.filter (warns Call schema) keys))%list).
Proof.
  revert state.
  induction keys as [|key keys IH]; intros [sanitizedFilter console] Hkeys.
  - simpl. now rewrite app_nil_r.
  - destruct (Hkeys key) as [own Hown]; [now left|].
    cbn [for_each List.filter]. unfold check_key, passes, warns, queryable.
    rewrite Hown.
    destruct (own || is_timestamp key); simpl.
    + destruct (has_marker _ || is_timestamp key); simpl.
      * rewrite IH; [reflexivity | intros; apply Hkeys; now right].
      * rewrite IH; [|intros; apply Hkeys; now right].
        simpl. now rewrite <- app_assoc.
    + rewrite IH; [reflexivity | intros; apply Hkeys; now right].
Qed.

(** The loop ends early only where a call of the method throws. *)
Lemma for_each_answered (keys : list string) (state state' : JSValue * Console) :
  for_each (check_key Call schema filterObject) keys state = Return state' ->
  forall key, In key keys ->
              exists own, hasOwnProperty Call schema key = Return own.
Proof.
  revert state. induction keys as [|k keys IH]; intros [sf console] H key.
  - intros [].
  - cbn [for_each] in H. unfold check_key in H.
    destruct (hasOwnProperty Call schema k) as [own|e] eqn:Hown;
      [|discriminate].
    intros [<-|Hin]; [eauto|].
    destruct (own || is_timestamp k);
      [destruct (has_marker _ || is_timestamp k)|]; eapply IH; eauto.
Qed.

(** The body returns when the call of the method does. *)
Lemma check_key_returns (state : JSValue * Console) (key : string)
  (own : bool) :
  hasOwnProperty Call schema key = Return own ->
  exists state', check_key Call schema filterObject state key = Return state'.
Proof.
  intros H. destruct state as [sf console]. unfold check_key. rewrite H.
  destruct (own || is_timestamp key);
    [destruct (has_marker _ || is_timestamp key)|]; eauto.
Qed.

(** The loop throws what the first call of the method that throws
    does. *)
Lemma for_each_Throw (keys : list string) (state : JSValue * Console)
  (e : Exception) :
  for_each (check_key Call schema filterObject) keys state = Throw e <->
  exists before key after,
    keys = (before ++ key :: after)%list /\
    (forall k, In k before ->
               exists own, hasOwnProperty Call schema k = Return own) /\
    hasOwnProperty Call schema key = Throw e.
Proof.
  revert state. induction keys as [|k keys IH]; intros state.
  - split; [discriminate|].
    intros (before & key & after & H & _). now destruct before.
  - cbn [for_each].
    destruct (hasOwnProperty Call schema k) as [own|e'] eqn:Hown.
    + destruct (check_key_returns state k own Hown) as [state' ->].
      rewrite IH. split.
      * intros (before & key & after & -> & Hbefore & Hkey).
        exists (k :: before), key, after. repeat split; auto.
        intros k' [<-|Hin]; eauto.
      * intros (before & key & after & Hkeys & Hbefore & Hkey).
        destruct before as [|k' before]; simpl in Hkeys;
          injection Hkeys as <- Hkeys; [congruence|].
        exists before, key, after. repeat split; auto.
        intros k' Hin. apply Hbefore. now right.
    + assert (check_key Call schema filterObject state k = Throw e') as ->
        by (destruct state; unfold check_key; now rewrite Hown).
      split.
      * intros [= ->]. exists [], k, keys. repeat split; auto.
        intros k' [].
      * intros (before & key & after & Hkeys & Hbefore & Hkey).
        destruct before as [|k' before]; simpl in Hkeys;
          injection Hkeys as <- Hkeys; [congruence|].
        destruct (Hbefore k) as [own Hk]; [now left | congruence].
Qed.

Lemma own_keys_copied (keys : list string) (sanitizedFilter : JSValue)
  (key : string) :
  In key (Obj.own_keys (fold_left (copy filterObject) keys sanitizedFilter))
  ->
  In key keys \/ In key (Obj.own_keys sanitizedFilter).
Proof.
  revert sanitizedFilter. induction keys as [|k keys IH]; simpl; auto.
  intros sanitizedFilter H. apply IH in H as [H|H]; auto.
  apply own_keys_Set in H as [->|H]; auto.
Qed.

(** Copies under keys other than [__proto__] leave a plain object
    plain. *)
Lemma plain_copied (keys : list string) (sanitizedFilter : JSValue) :
  (forall key, In key keys -> key <> "__proto__") ->
  (exists props, sanitizedFilter = object props) ->
  exists props,
    fold_left (copy filterObject) keys sanitizedFilter = object props.
Proof.
  revert sanitizedFilter. induction keys as [|key keys IH]; simpl; auto.
  intros sanitizedFilter Hkeys (props & ->). apply IH; [auto|].
  assert (key <> "__proto__") as Hkey by auto.
  apply String.eqb_neq in Hkey.
  unfold copy, object. simpl. rewrite Hkey. simpl.
  destruct (Obj.has_own props key); eauto.
Qed.

(** Once the filter is parsed and every call of the method returns, the
    call returns: the copies made in enumeration order, and one warning
    per key that [warns] picks. *)
Lemma validateFilterFields_returns (filter : JSValue) :
  stringToObject Date_parse filter = Return filterObject ->
  (forall key, In key (Obj.for_in filterObject) ->
               exists own, hasOwnProperty Call schema key = Return own) ->
  validateFilterFields Date_parse Call filter schema =
  Return
    (fold_left (copy filterObject)
       (List.filter (passes Call schema) (Obj.for_in filterObject))
       (object []),
     map not_queryable
       (List.filter (warns Call schema) (Obj.for_in filterObject))).
Proof.
  intros H Hkeys. unfold validateFilterFields. rewrite H.
  now rewrite for_each_check_key.
Qed.

(** What the call returned, when it returned. *)
Lemma validateFilterFields_returned (filter : JSValue)
  (state : JSValue * Console) :
  stringToObject Date_parse filter = Return filterObject ->
  validateFilterFields Date_parse Call filter schema = Return state ->
  state =
  (fold_left (copy filterObject)
     (List.filter (passes Call schema) (Obj.for_in filterObject))
     (object []),
   map not_queryable
     (List.filter (warns Call schema) (Obj.for_in filterObject)))
  /\ forall key, In key (Obj.for_in filterObject) ->
                 exists own, hasOwnProperty Call schema key = Return own.
Proof.
  intros Hparse Hcall.
  assert (forall key, In key (Obj.for_in filterObject) ->
                      exists own, hasOwnProperty Call schema key = Return own)
    as Hkeys.
  { unfold validateFilterFields in Hcall. rewrite Hparse in Hcall.
    eapply for_each_answered; eassumption. }
  split; [|exact Hkeys].
  rewrite (validateFilterFields_returns _ Hparse Hkeys) in Hcall.
  now injection Hcall.
Qed.

(** With the built-in method the call returns once the filter is
    parsed. *)
Lemma validateFilterFields_builtin (filter : JSValue) :
  Obj.lookup "hasOwnProperty" (obj schema) = None ->
  stringToObject Date_parse filter = Return filterObject ->
  validateFilterFields Date_parse Call filter schema =
  Return
    (fold_left (copy filterObject)
       (List.filter (passes Call schema) (Obj.for_in filterObject))
       (object []),
     map not_queryable
       (List.filter (warns Call schema) (Obj.for_in filterObject))).
Proof.
  intros Hmethod Hparse. apply validateFilterFields_returns; [assumption|].
  intros key _. eexists. now apply hasOwnProperty_builtin.
Qed.

End Validation.

Lemma not_queryable_inj (k1 k2 : string) :
  not_queryable k1 = not_queryable k2 -> k1 = k2.
Proof.
  unfold not_queryable. intros H.
  apply (append_inj_tail "' is not queryable.").
  simpl in H. now injection H.
Qed.

Lemma is_timestamp_true (key : string) :
  is_timestamp key = true -> key = "createdAt" \/ key = "updatedAt".
Proof.
  unfold is_timestamp. intros H.
  apply orb_true_iff in H as [H|H]; apply String.eqb_eq in H; auto.
Qed.

(** What [Object.prototype] gives under a name has no marker: the marker
    is found on a path of the schema only. *)
Lemma has_marker_schema_field (schema : Schema) (key : string) :
  has_marker (schema_field schema key) = true ->
  exists field,
    Obj.lookup key (obj schema) = Some field /\ has_marker field = true.
Proof.
  unfold schema_field.
  destruct (Obj.lookup key (obj schema)) as [field|]; [eauto|].
  destruct (key =? "__proto__"); [discriminate|].
  destruct (key =? "constructor"); [discriminate|].
  destruct (Obj.mem key Object_prototype_methods); discriminate.
Qed.

(** A key for which the second test holds is a timestamp or a path of the
    schema whose definition is an object with the marker. *)
Lemma queryable_allowed (schema : Schema) (key : string) :
  queryable schema key = true ->
  key = "createdAt" \/ key = "updatedAt" \/
  exists field,
    Obj.lookup key (obj schema) = Some field /\
    typeof field = "object" /\ field <> VNull /\
    Obj.HasProperty field "q" = true.
Proof.
  unfold queryable. intros H.
  destruct (is_timestamp key) eqn:T.
  - apply is_timestamp_true in T. tauto.
  - rewrite orb_false_r in H. right. right.
    apply has_marker_schema_field in H as (field & Hfield & H).
    exists field. unfold has_marker in H.
    apply andb_true_iff in H as [H Hq]. apply andb_true_iff in H as [Hb Ht].
    apply String.eqb_eq in Ht.
    repeat split; auto.
    intros ->. discriminate.
Qed.

Lemma passes_queryable
  (Call : string -> JSValue -> list JSValue -> Result JSValue)
  (schema : Schema) (key : string) :
  passes Call schema key = true -> queryable schema key = true.
Proof.
  unfold passes.
  destruct (hasOwnProperty Call schema key); [|discriminate].
  intros H. now apply andb_true_iff in H.
Qed.

(** For a key that does not pass, the loop warns exactly when the method
    answered yes. *)
Lemma warns_rejected
  (Call : string -> JSValue -> list JSValue -> Result JSValue)
  (schema : Schema) (key : string) :
  passes Call schema key = false ->
  warns Call schema key = true <->
  hasOwnProperty Call schema key = Return true.
Proof.
  unfold passes, warns, queryable.
  destruct (hasOwnProperty Call schema key) as [own|e]; [|easy].
  destruct own, (is_timestamp key), (has_marker (schema_field schema key));
    simpl; intros H; split; intros H'; congruence.
Qed.

(** C1. Whatever the raw filter and the schema, every own key of the
    mapping [validateFilterFields] returns is [createdAt], [updatedAt], or
    a key of the schema whose definition is an object holding the marker
    [q]; and it is a key of the parsed filter the loop went through.  The
    mapping is a plain object, with own keys only, unless [__proto__]
    itself is such a key of the schema. *)
Theorem sanitized_keys_allowed
  (Date_parse : string -> option Z)
  (Call : string -> JSValue -> list JSValue -> Result JSValue)
  (filter : JSValue) (schema : Schema)
  (sanitizedFilter : JSValue) (console : Console) :
  validateFilterFields Date_parse Call filter schema
  = Return (sanitizedFilter, console) ->
  (forall key,
      In key (Obj.own_keys sanitizedFilter) ->
      (key = "createdAt" \/ key = "updatedAt" \/
       exists field,
         Obj.lookup key (obj schema) = Some field /\
         typeof field = "object" /\ field <> VNull /\
         Obj.HasProperty field "q" = true)
      /\ exists filterObject,
           stringToObject Date_parse filter = Return filterObject /\
           In key (Obj.for_in filterObject))
  /\ (passes Call schema "__proto__" = false ->
      exists props, sanitizedFilter = object props).
Proof.
  intros Hcall.
  destruct (stringToObject Date_parse filter) as [filterObject|e] eqn:Hparse.
  - destruct (validateFilterFields_returned _ _ _ _ _ _ Hparse Hcall)
      as [Hstate _].
    injection Hstate as Hfilter _. subst sanitizedFilter.
    split.
    + intros key Hkey.
      apply own_keys_copied in Hkey as [Hkey|[]].
      apply filter_In in Hkey as [Hin Hpass].
      split; [now apply queryable_allowed, (passes_queryable Call) | eauto].
    + intros Hproto. apply plain_copied; [|unfold object; eauto].
      intros key Hkey ->. apply filter_In in Hkey as [_ Hkey]. congruence.
  - unfold validateFilterFields in Hcall. rewrite Hparse in Hcall.
    discriminate.
Qed.

Lemma sanitized_keys_allowed_witness :
  (("name" = "createdAt" \/ "name" = "updatedAt" \/
    exists field,
      Obj.lookup "name" (obj Examples.schema) = Some field /\
      typeof field = "object" /\ field <> VNull /\
      Obj.HasProperty field "q" = true)
   /\ exists filterObject,
        stringToObject ISODate.parse Examples.filter = Return filterObject /\
        In "name" (Obj.for_in filterObject))
  /\ exists props, object [("name", VString "Bob")] = object props.
Proof.
  destruct (sanitized_keys_allowed ISODate.parse Host.call Examples.filter
              Examples.schema (object [("name", VString "Bob")])
              ["Field 'age' is not queryable."])
    as [Hkeys Hplain]; [reflexivity|].
  split.
  - apply Hkeys. simpl. auto.
  - apply Hplain. reflexivity.
Defined.

(** C2, as the code has it.  When the call returns, a key of the parsed
    filter that does not pass is no own key of the result, and the console
    names it exactly when [schema.obj.hasOwnProperty(key)] answered yes.
    For a schema with no path named [hasOwnProperty] the call returns once
    the filter is parsed and the method is the built-in test, so the
    console names a rejected key exactly when the schema has it: a key
    unknown to the schema is dropped without a word. *)
Theorem rejected_key_omitted
  (Date_parse : string -> option Z)
  (Call : string -> JSValue -> list JSValue -> Result JSValue)
  (filter : JSValue) (schema : Schema) (filterObject : JSValue) :
  stringToObject Date_parse filter = Return filterObject ->
  (forall sanitizedFilter console,
      validateFilterFields Date_parse Call filter schema
      = Return (sanitizedFilter, console) ->
      forall key,
        In key (Obj.for_in filterObject) ->
        passes Call schema key = false ->
        ~ In key (Obj.own_keys sanitizedFilter) /\
        (In (not_queryable key) console <->
         hasOwnProperty Call schema key = Return true))
  /\ (Obj.lookup "hasOwnProperty" (obj schema) = None ->
      (exists sanitizedFilter console,
          validateFilterFields Date_parse Call filter schema
          = Return (sanitizedFilter, console))
      /\ forall key,
          hasOwnProperty Call schema key
          = Return (Obj.has_own (obj schema) key)).
Proof.
  intros Hparse. split.
  - intros sanitizedFilter console Hcall key Hin Hpass.
    destruct (validateFilterFields_returned _ _ _ _ _ _ Hparse Hcall)
      as [Hstate _].
    injection Hstate as Hfilter Hconsole. subst sanitizedFilter console.
    split.
    + intros H. apply own_keys_copied in H as [H|[]].
      apply filter_In in H as [_ H]. congruence.
    + rewrite <- (warns_rejected _ _ _ Hpass). split.
      * intros H. apply in_map_iff in H as (k & Heq & H).
        apply not_queryable_inj in Heq as ->.
        now apply filter_In in H.
      * intros H. apply in_map, filter_In. now split.
  - intros Hmethod. split.
    + do 2 eexists.
      exact (validateFilterFields_builtin _ _ _ _ _ Hmethod Hparse).
    + intros key. now apply hasOwnProperty_builtin.
Qed.

Lemma rejected_key_omitted_witness :
  (~ In "age" (Obj.own_keys (object [("name", VString "Bob")])) /\
   (In (not_queryable "age") ["Field 'age' is not queryable."] <->
    hasOwnProperty Host.call Examples.schema "age" = Return true))
  /\ (~ In "secret" (Obj.own_keys (object [("name", VString "Bob")])) /\
      (In (not_queryable "secret") ["Field 'age' is not queryable."] <->
       hasOwnProperty Host.call Examples.schema "secret" = Return true))
  /\ exists sanitizedFilter console,
      validateFilterFields ISODate.parse Host.call Examples.filter
        Examples.schema
      = Return (sanitizedFilter, console).
Proof.
  destruct (rejected_key_omitted ISODate.parse Host.call Examples.filter
              Examples.schema Examples.filter)
    as [Hkeys Hbuiltin]; [reflexivity|].
  repeat apply conj.
  - apply (Hkeys _ _ eq_refl "age"); [simpl; auto | reflexivity].
  - apply (Hkeys _ _ eq_refl "age"); [simpl; auto | reflexivity].
  - apply (Hkeys _ _ eq_refl "age"); [simpl; auto | reflexivity].
  - apply (Hkeys _ _ eq_refl "secret"); [simpl; auto | reflexivity].
  - apply (Hkeys _ _ eq_refl "secret"); [simpl; auto | reflexivity].
  - apply (Hkeys _ _ eq_refl "secret"); [simpl; auto | reflexivity].
  - apply Hbuiltin. reflexivity.
Defined.

(** C2 as stated fails: [secret] is a key of the filter that does not
    pass, the call returns, and no line of the console names it. *)
Lemma unknown_key_gets_no_diagnostic :
  In "secret" (Obj.for_in Examples.filter) /\
  passes Host.call Examples.schema "secret" = false /\
  Obj.lookup "hasOwnProperty" (obj Examples.schema) = None /\
  validateFilterFields ISODate.parse Host.call Examples.filter
    Examples.schema
  = Return (object [("name", VString "Bob")],
            ["Field 'age' is not queryable."]) /\
  ~ In (not_queryable "secret") ["Field 'age' is not queryable."].
Proof.
  repeat split.
  - simpl. auto.
  - intros [H|[]]. discriminate.
Qed.

(** ** The loop of [stringToObject] *)

Lemma all_representable_update (key : string) (v : JSValue)
  (props : Properties) :
  representable v = true -> all_representable props ->
  all_representable (Obj.update key v props).
Proof.
  intros Hv. induction 1 as [|[k w] rest Hw Hrest IH]; simpl.
  - constructor.
  - destruct (k =? key); constructor; auto.
Qed.

Lemma all_representable_insert (i : N) (key : string) (v : JSValue)
  (props : Properties) :
  representable v = true -> all_representable props ->
  all_representable (Obj.insert_index i key v props).
Proof.
  intros Hv. induction 1 as [|[k w] rest Hw Hrest IH]; simpl.
  - repeat constructor. exact Hv.
  - destruct (Obj.array_index k) as [j|]; [destruct (i <? j)%N|];
      repeat (constructor; auto).
Qed.

Lemma all_representable_define (key : string) (v : JSValue)
  (props : Properties) :
  representable v = true -> all_representable props ->
  all_representable (Obj.define key v props).
Proof.
  intros Hv Hprops. unfold Obj.define.
  destruct (Obj.has_own props key).
  - now apply all_representable_update.
  - destruct (Obj.array_index key).
    + now apply all_representable_insert.
    + apply Forall_app. split; [assumption|]. repeat constructor. exact Hv.
Qed.

Lemma parsed_Set (o : JSValue) (key : string) (v : JSValue) :
  representable v = true -> parsed o -> parsed (Obj.Set_ o key v).
Proof.
  intros Hv (prototype & props & -> & Hprops). unfold parsed. simpl.
  destruct (Obj.has_own props key).
  - eauto using all_representable_update.
  - destruct ((key =? "__proto__") && Obj.reaches_proto_accessor prototype).
    + destruct (Obj.is_object_or_null v); eauto.
    + eauto using all_representable_define.
Qed.

Section Parsing.

Variable Date_parse : string -> option Z.

(** A value with a colon always has its two items. *)
Lemma operator_entry_defined (value : string) :
  Str.includes ":" value = true ->
  exists a b rest,
    Str.split ":" value = a :: b :: rest /\
    operator_entry Date_parse value =
    Some (object [(Str.trim a,
                   if time_truthy (Date_parse (Str.trim b))
                   then new_Date Date_parse (Str.trim b)
                   else VString (Str.trim b))]).
Proof.
  intros H. destruct (split_includes _ _ H) as (a & b & rest & E).
  exists a, b, rest. split; [assumption|].
  unfold operator_entry. rewrite E. simpl.
  now destruct (time_truthy _).
Qed.

Lemma entry_representable (value : string) (assigned : JSValue) :
  entry Date_parse value = Some assigned -> representable assigned = true.
Proof.
  unfold entry. destruct (Str.includes ":" value) eqn:E.
  - destruct (operator_entry_defined _ E) as (a & b & rest & _ & ->).
    intros [= <-]. simpl. now destruct (time_truthy _).
  - intros [= <-]. unfold plain_entry.
    now destruct (Num.isNaN (Num.Number value)) eqn:N.
Qed.

Lemma entry_defined (value : string) :
  exists assigned, entry Date_parse value = Some assigned.
Proof.
  unfold entry. destruct (Str.includes ":" value) eqn:E; [|eauto].
  destruct (operator_entry_defined _ E) as (a & b & rest & _ & ->). eauto.
Qed.

Lemma parsed_parse_pair (result : JSValue) (pair : string) :
  parsed result -> parsed (parse_pair Date_parse result pair).
Proof.
  intros H. unfold parse_pair.
  destruct (map Str.trim (Str.split "=" pair)) as [|key [|value more]]; auto.
  destruct (ToBoolean (VString key) && ToBoolean (VString value)); auto.
  destruct (entry Date_parse value) eqn:E; auto.
  apply parsed_Set; eauto using entry_representable.
Qed.

Lemma parsed_pairs (pairs : list string) (result : JSValue) :
  parsed result -> parsed (fold_left (parse_pair Date_parse) pairs result).
Proof.
  revert result. induction pairs; simpl; auto using parsed_parse_pair.
Qed.

(** On a text [stringToObject] returns, and what it returns is parsed. *)
Lemma stringToObject_text (s : string) :
  exists mapping,
    stringToObject Date_parse (VString s) = Return mapping /\ parsed mapping.
Proof.
  assert (parsed (object [])) as Hempty by (repeat eexists; constructor).
  unfold stringToObject.
  destruct (negb (ToBoolean (VString s)) || (s =? "{}")); [eauto|].
  simpl typeof. simpl. eauto using parsed_pairs.
Qed.


Lemma truthy_text (s : string) : s <> "" -> ToBoolean (VString s) = true.
Proof. intros H. simpl. apply String.eqb_neq in H. now rewrite H. Qed.

Lemma falsy_text (s : string) : s = "" -> ToBoolean (VString s) = false.
Proof. now intros ->. Qed.

Lemma parsed_ordinary (o : JSValue) : parsed o -> ordinary o.
Proof. intros (prototype & props & -> & _). unfold ordinary. eauto. Qed.

(** A pair assigns to its key or leaves the result alone. *)
Lemma parse_pair_pair_key (result : JSValue) (pair : string) :
  match pair_key pair with
  | Some key =>
      exists assigned, parse_pair Date_parse result pair
                       = Obj.Set_ result key assigned
  | None => parse_pair Date_parse result pair = result
  end.
Proof.
  unfold pair_key, parse_pair.
  destruct (map Str.trim (Str.split "=" pair)) as [|key [|value more]]; auto.
  destruct (ToBoolean (VString key) && ToBoolean (VString value)); auto.
  destruct (entry_defined value) as [assigned ->]. eauto.
Qed.

(** Pairs that assign to other keys leave an own property alone. *)
Lemma holds_later_pairs (key : string) (v : JSValue) (later : list string)
  (result : JSValue) :
  (forall pair, In pair later -> pair_key pair <> Some key) ->
  holds result key v ->
  holds (fold_left (parse_pair Date_parse) later result) key v.
Proof.
  revert result. induction later as [|pair later IH]; simpl; auto.
  intros result Hlater Hholds. apply IH; [auto|].
  pose proof (parse_pair_pair_key result pair) as Hpair.
  destruct (pair_key pair) as [k|] eqn:E.
  - destruct Hpair as [assigned ->]. apply holds_Set_other; auto.
    intros ->. now apply (Hlater pair); auto.
  - now rewrite Hpair.
Qed.

(** No pair of the empty text or of [{}] assigns. *)
Lemma pairs_of_trivial (s : string) :
  negb (ToBoolean (VString s)) || (s =? "{}") = true ->
  pairs_of s = [EmptyString].
Proof.
  intros H. apply orb_true_iff in H as [H|H].
  - destruct s; [reflexivity | discriminate].
  - apply String.eqb_eq in H as ->. reflexivity.
Qed.

(** The entry a pair assigns is the one its key holds at the end, when the
    key is not [__proto__] and no later pair assigns to it. *)
Lemma stored_entry (s : string) (before after : list string)
  (pair key value : string) (more : list string) (assigned : JSValue) :
  pairs_of s = (before ++ pair :: after)%list ->
  map Str.trim (Str.split "=" pair) = key :: value :: more ->
  key <> "" -> value <> "" ->
  entry Date_parse value = Some assigned ->
  key <> "__proto__" ->
  (forall later, In later after -> pair_key later <> Some key) ->
  exists mapping,
    stringToObject Date_parse (VString s) = Return mapping /\
    Obj.Get mapping key = assigned.
Proof.
  intros Hpairs Hpair Hkey Hvalue Hentry Hproto Hafter.
  unfold stringToObject.
  destruct (negb (ToBoolean (VString s)) || (s =? "{}")) eqn:E.
  - rewrite (pairs_of_trivial _ E) in Hpairs.
    destruct before as [|first [|second before]]; try discriminate.
    injection Hpairs as <- _. discriminate.
  - simpl typeof. cbn [String.eqb Ascii.eqb Bool.eqb].
    fold (pairs_of s). rewrite Hpairs, fold_left_app. cbn [fold_left].
    eexists. split; [reflexivity|]. apply holds_Get, holds_later_pairs; auto.
    assert (parsed (object [])) as Hempty by (repeat eexists; constructor).
    pose proof (parsed_pairs before _ Hempty) as Hbefore.
    set (result := fold_left (parse_pair Date_parse) before (object [])) in *.
    unfold parse_pair.
    rewrite Hpair, (truthy_text _ Hkey), (truthy_text _ Hvalue), Hentry.
    apply holds_Set; auto using parsed_ordinary.
Qed.

End Parsing.

(** ** [stringToObject] *)

(** The parses the specification lists, on a host whose [Date.parse]
    answers NaN for [active]. *)
Example parse_examples (Date_parse : string -> option Z) :
  stringToObject Date_parse (VString "{}") = Return (object []) /\
  stringToObject Date_parse (VString "") = Return (object []) /\
  stringToObject Date_parse (VString "{name=Bob}")
  = Return (object [("name", VString "Bob")]) /\
  (Date_parse "active" = None ->
   stringToObject Date_parse (VString "{status=eq:active}")
   = Return (object [("status", object [("eq", VString "active")])])).
Proof.
  repeat split. intros Hnan. vm_compute. now rewrite Hnan.
Qed.

(** The schema [{ name: { q: true }, age: {} }] keeps [name] of the filter
    [{ name: "Bob", age: 30, secret: "x" }], and a timestamp with it,
    whatever the functions of the host do; with a path
    [hasOwnProperty: String] the method is [String] and answers yes for
    every key, so that [secret] gets a warning too; with a path
    [hasOwnProperty: {}] the first key ends the call. *)
Example validate_example (Date_parse : string -> option Z)
  (Call : string -> JSValue -> list JSValue -> Result JSValue) :
  validateFilterFields Date_parse Call Examples.filter Examples.schema
  = Return (object [("name", VString "Bob")],
            ["Field 'age' is not queryable."]) /\
  validateFilterFields Date_parse Call
    (object [("secret", VString "x"); ("updatedAt", VNumber (Num.of_Z 1))])
    Examples.schema
  = Return (object [("updatedAt", VNumber (Num.of_Z 1))], []) /\
  validateFilterFields Date_parse Host.call Examples.filter
    {| obj := (obj Examples.schema
               ++ [("hasOwnProperty", VFunction "String")])%list |}
  = Return (object [("name", VString "Bob")],
            ["Field 'age' is not queryable.";
             "Field 'secret' is not queryable."]) /\
  validateFilterFields Date_parse Call Examples.filter
    {| obj := (obj Examples.schema ++ [("hasOwnProperty", object [])])%list |}
  = Throw (TypeError "schema.obj.hasOwnProperty is not a function").
Proof. repeat split; reflexivity. Qed.

(** C4, as the code has it.  A value with a colon is split at every colon:
    the operator is the first item and the operand the second, both
    trimmed, and what follows a second colon is dropped.  When
    [Date.parse] gives the operand a time value other than zero the pair
    assigns [{ operator: new Date(operand) }], when it gives NaN the pair
    assigns [{ operator: operand }] with the operand as text; that entry is
    what the key holds in the mapping returned, unless the key is
    [__proto__] or a later pair assigns to it.
    [{createdAt=gte:2023-01-01}] parses to
    [{ createdAt: { gte: Date("2023-01-01") } }]. *)
Theorem operator_value_assigned (Date_parse : string -> option Z) :
  (forall pair key value more,
      map Str.trim (Str.split "=" pair) = key :: value :: more ->
      key <> "" -> value <> "" ->
      Str.includes ":" value = true ->
      exists a b rest stored,
        Str.split ":" value = a :: b :: rest /\
        (forall t,
            Date_parse (Str.trim b) = Some t -> t <> 0%Z ->
            stored = object [(Str.trim a, VDate (Some t))]) /\
        (Date_parse (Str.trim b) = None ->
         stored = object [(Str.trim a, VString (Str.trim b))]) /\
        (forall result,
            parse_pair Date_parse result pair = Obj.Set_ result key stored) /\
        (forall s before after,
            pairs_of s = (before ++ pair :: after)%list ->
            key <> "__proto__" ->
            (forall later, In later after -> pair_key later <> Some key) ->
            exists mapping,
              stringToObject Date_parse (VString s) = Return mapping /\
              Obj.Get mapping key = stored))
  /\ (Date_parse "2023-01-01" = Some 1672531200000%Z ->
      stringToObject Date_parse (VString "{createdAt=gte:2023-01-01}")
      = Return (object [("createdAt",
                         object [("gte", VDate (Some 1672531200000%Z))])])).
Proof.
  split.
  - intros pair key value more Hpair Hkey Hvalue Hcolon.
    destruct (operator_entry_defined Date_parse _ Hcolon)
      as (a & b & rest & Hsplit & Hentry).
    exists a, b, rest.
    exists (object [(Str.trim a,
                     if time_truthy (Date_parse (Str.trim b))
                     then new_Date Date_parse (Str.trim b)
                     else VString (Str.trim b))]).
    split; [exact Hsplit|].
    assert (entry Date_parse value = operator_entry Date_parse value)
      as Hbranch by (unfold entry; now rewrite Hcolon).
    repeat apply conj.
    + intros t Ht Hnonzero. unfold new_Date. rewrite Ht. simpl.
      apply Z.eqb_neq in Hnonzero. now rewrite Hnonzero.
    + intros Hnan. now rewrite Hnan.
    + intros result. unfold parse_pair.
      now rewrite Hpair, (truthy_text _ Hkey), (truthy_text _ Hvalue),
        Hbranch, Hentry.
    + intros s before after Hpairs Hproto Hafter.
      apply (stored_entry Date_parse s before after pair key value more);
        auto.
      now rewrite Hbranch.
  - intros Hdate. vm_compute. rewrite Hdate. reflexivity.
Qed.

Lemma operator_value_assigned_witness :
  (exists mapping,
      stringToObject ISODate.parse
        (VString "{createdAt=gte:2023-01-01,limit=5}") = Return mapping /\
      Obj.Get mapping "createdAt"
      = object [("gte", VDate (Some 1672531200000%Z))])
  /\ stringToObject ISODate.parse (VString "{createdAt=gte:2023-01-01}")
     = Return (object [("createdAt",
                        object [("gte", VDate (Some 1672531200000%Z))])]).
Proof.
  destruct (operator_value_assigned ISODate.parse) as [Hpair Hexample].
  split.
  - destruct (Hpair "createdAt=gte:2023-01-01" "createdAt" "gte:2023-01-01" [])
      as (a & b & rest & stored & Hsplit & Hdate & _ & _ & Hstored).
    + reflexivity.
    + discriminate.
    + discriminate.
    + reflexivity.
    + injection Hsplit as <- <- _.
      assert (stored = object [("gte", VDate (Some 1672531200000%Z))]) as <-
        by (apply Hdate; [reflexivity | discriminate]).
      apply (Hstored "{createdAt=gte:2023-01-01,limit=5}" [] ["limit=5"]).
      * reflexivity.
      * discriminate.
      * intros later [<-|[]]. discriminate.
  - apply Hexample. reflexivity.
Defined.

(** C4 as stated fails.  Cut at its first colon, [gte:a:b] has the
    operand [a:b], which is no date, so the claim stores the text [a:b]
    under [gte]; the code stores [a]. *)
Lemma operand_cut_at_second_colon :
  map Str.trim (Spec.split_first ":" "gte:a:b") = ["gte"; "a:b"] /\
  ISODate.parse "a:b" = None /\
  stringToObject ISODate.parse (VString "{t=gte:a:b}")
  = Return (object [("t", object [("gte", VString "a")])]) /\
  stringToObject ISODate.parse (VString "{t=gte:a:b}")
  <> Return (object [("t", object [("gte", VString "a:b")])]).
Proof. repeat split. discriminate. Qed.

(** The operand [1970-01-01] is a date, of time value zero, and stays a
    text: the test on [Date.parse] takes zero for a failure. *)
Lemma epoch_operand_stays_text :
  ISODate.parse "1970-01-01" = Some 0%Z /\
  stringToObject ISODate.parse (VString "{createdAt=gte:1970-01-01}")
  = Return (object [("createdAt", object [("gte", VString "1970-01-01")])]).
Proof. split; reflexivity. Qed.

(** C5, as the code has it.  A pair is split at every [=]: the key is the
    first item and the value the second, both trimmed, and what follows a
    second [=] is dropped, so the value keeps no [=]; the entry made of that
    value is what the key holds in the mapping returned, unless the key is
    [__proto__] or a later pair assigns to it.  A pair with no [=], or whose
    key or value is empty after trimming, leaves the result as it was. *)
Theorem pair_cut_at_every_equals (Date_parse : string -> option Z) :
  (forall pair a b rest,
      Str.split "=" pair = a :: b :: rest ->
      Str.trim a <> "" -> Str.trim b <> "" ->
      exists assigned,
        entry Date_parse (Str.trim b) = Some assigned /\
        (forall result,
            parse_pair Date_parse result pair
            = Obj.Set_ result (Str.trim a) assigned) /\
        (forall s before after,
            pairs_of s = (before ++ pair :: after)%list ->
            Str.trim a <> "__proto__" ->
            (forall later,
                In later after -> pair_key later <> Some (Str.trim a)) ->
            exists mapping,
              stringToObject Date_parse (VString s) = Return mapping /\
              Obj.Get mapping (Str.trim a) = assigned))
  /\ (forall result a b tail,
         Str.includes "=" a = false -> Str.includes "=" b = false ->
         Str.split "=" (a ++ "=" ++ b ++ "=" ++ tail)
         = a :: b :: Str.split "=" tail /\
         parse_pair Date_parse result (a ++ "=" ++ b ++ "=" ++ tail)
         = parse_pair Date_parse result (a ++ "=" ++ b))
  /\ (forall result pair a b rest,
         Str.split "=" pair = a :: b :: rest ->
         Str.trim a = "" \/ Str.trim b = "" ->
         parse_pair Date_parse result pair = result)
  /\ (forall result pair a,
         Str.split "=" pair = [a] ->
         parse_pair Date_parse result pair = result).
Proof.
  repeat apply conj.
  - intros pair a b rest Hsplit Ha Hb.
    destruct (entry_defined Date_parse (Str.trim b)) as [assigned Hentry].
    exists assigned. repeat apply conj; [assumption| |].
    + intros result. unfold parse_pair. rewrite Hsplit. cbn [map].
      now rewrite (truthy_text _ Ha), (truthy_text _ Hb), Hentry.
    + intros s before after Hpairs Hproto Hafter.
      apply (stored_entry Date_parse s before after pair
               (Str.trim a) (Str.trim b) (map Str.trim rest)); auto.
      now rewrite Hsplit.
  - intros result a b tail Ha Hb. split.
    + cbn [append]. now rewrite (split_app "=" a _ Ha), (split_app "=" b _ Hb).
    + unfold parse_pair. cbn [append].
      rewrite (split_app "=" a _ Ha), (split_app "=" b _ Hb).
      rewrite (split_app "=" a _ Ha), (split_without "=" b Hb).
      reflexivity.
  - intros result pair a b rest Hsplit Hempty.
    unfold parse_pair. rewrite Hsplit. cbn [map].
    destruct Hempty as [E|E]; rewrite (falsy_text _ E);
      [|rewrite andb_false_r]; reflexivity.
  - intros result pair a Hsplit. unfold parse_pair. now rewrite Hsplit.
Qed.

Lemma pair_cut_at_every_equals_witness :
  (exists mapping assigned,
      entry ISODate.parse "b" = Some assigned /\
      stringToObject ISODate.parse (VString "{ a =b=c,d=1}") = Return mapping /\
      Obj.Get mapping "a" = assigned)
  /\ (Str.split "=" "a=b=c" = ["a"; "b"; "c"] /\
      parse_pair ISODate.parse (object []) "a=b=c"
      = parse_pair ISODate.parse (object []) "a=b")
  /\ parse_pair ISODate.parse (object []) "a= " = object []
  /\ parse_pair ISODate.parse (object []) "a" = object [].
Proof.
  destruct (pair_cut_at_every_equals ISODate.parse)
    as (Hstored & Hdropped & Hempty & Hlone).
  repeat apply conj.
  - destruct (Hstored " a =b=c" " a " "b" ["c"])
      as (assigned & Hentry & _ & Hmapping).
    + reflexivity.
    + discriminate.
    + discriminate.
    + destruct (Hmapping "{ a =b=c,d=1}" [] ["d=1"]) as (mapping & Hs & Hget).
      * reflexivity.
      * discriminate.
      * intros later [<-|[]]. discriminate.
      * exists mapping, assigned. auto.
  - apply (Hdropped (object []) "a" "b" "c"); reflexivity.
  - apply (Hdropped (object []) "a" "b" "c"); reflexivity.
  - apply (Hempty (object []) "a= " "a" " " []).
    + reflexivity.
    + right. reflexivity.
  - apply (Hlone (object []) "a" "a"). reflexivity.
Defined.

(** C5 as stated fails.  Cut at its first [=], the pair [a=b=c] has the
    value [b=c]; the code stores [b]. *)
Lemma value_loses_later_equals :
  map Str.trim (Spec.split_first "=" "a=b=c") = ["a"; "b=c"] /\
  stringToObject ISODate.parse (VString "{a=b=c}")
  = Return (object [("a", VString "b")]) /\
  stringToObject ISODate.parse (VString "{a=b=c}")
  <> Return (object [("a", VString "b=c")]).
Proof. repeat split. discriminate. Qed.

(** C6. A pair whose trimmed value is not empty and holds no colon assigns
    [Number(value)] when that is not NaN, zero included, and the trimmed
    text otherwise; that is what the key holds in the mapping returned,
    unless the key is [__proto__] or a later pair assigns to it.
    [{age=30}] parses to [{ age: 30 }], and [{n=0}] to [{ n: 0 }]. *)
Theorem plain_value_number_or_text (Date_parse : string -> option Z) :
  (forall pair key value more,
      map Str.trim (Str.split "=" pair) = key :: value :: more ->
      key <> "" -> value <> "" ->
      Str.includes ":" value = false ->
      let stored := if Num.isNaN (Num.Number value) then VString value
                    else VNumber (Num.Number value) in
      (forall result,
          parse_pair Date_parse result pair = Obj.Set_ result key stored) /\
      (forall s before after,
          pairs_of s = (before ++ pair :: after)%list ->
          key <> "__proto__" ->
          (forall later, In later after -> pair_key later <> Some key) ->
          exists mapping,
            stringToObject Date_parse (VString s) = Return mapping /\
            Obj.Get mapping key = stored))
  /\ stringToObject Date_parse (VString "{age=30}")
     = Return (object [("age", VNumber (Num.of_Z 30))])
  /\ stringToObject Date_parse (VString "{n=0}")
     = Return (object [("n", VNumber (S754_zero false))]).
Proof.
  repeat apply conj; [|reflexivity|reflexivity].
  intros pair key value more Hpair Hkey Hvalue Hcolon stored.
  assert (entry Date_parse value = Some stored) as Hentry
    by (unfold entry; now rewrite Hcolon).
  split.
  - intros result. unfold parse_pair.
    now rewrite Hpair, (truthy_text _ Hkey), (truthy_text _ Hvalue), Hentry.
  - intros s before after Hpairs Hproto Hafter.
    now apply (stored_entry Date_parse s before after pair key value more).
Qed.

Lemma plain_value_number_or_text_witness :
  parse_pair ISODate.parse (object []) "age=30"
  = Obj.Set_ (object []) "age" (VNumber (Num.of_Z 30)) /\
  exists mapping,
    stringToObject ISODate.parse (VString "{age=30,name=Bob}")
    = Return mapping /\
    Obj.Get mapping "age" = VNumber (Num.of_Z 30).
Proof.
  destruct (plain_value_number_or_text ISODate.parse) as (Hpair & _ & _).
  destruct (Hpair "age=30" "age" "30" []) as [Hassigned Hstored].
  - reflexivity.
  - discriminate.
  - discriminate.
  - reflexivity.
  - split.
    + apply Hassigned.
    + apply (Hstored "{age=30,name=Bob}" [] ["name=Bob"]).
      * reflexivity.
      * discriminate.
      * intros later [<-|[]]. discriminate.
Defined.

(** ** [buildFilterObject] *)

(** The empty text is no JSON text. *)
Lemma JSON_parse_empty : JSON.parse "" = None.
Proof. reflexivity. Qed.

(** A text that [JSON.parse] accepts is not empty, so the parse is
    reached and its value returned. *)
Lemma buildFilterObject_parsed (text : string) (v : JSValue) :
  JSON.parse text = Some v -> buildFilterObject (QueryText text) = Return v.
Proof.
  intros Hparse. destruct text as [|c rest].
  - discriminate.
  - unfold buildFilterObject. simpl. now rewrite Hparse.
Qed.

(** C7. On a text that is not empty and that [JSON.parse] refuses,
    [buildFilterObject] throws the error [Invalid filter query format] to
    its caller; it does so on [{not json]. *)
Theorem invalid_text_raises :
  (forall text,
      text <> "" -> JSON.parse text = None ->
      buildFilterObject (QueryText text) = Throw InvalidFilterFormat)
  /\ buildFilterObject (QueryText "{not json") = Throw InvalidFilterFormat.
Proof.
  split; [|reflexivity].
  intros text Htext Hparse. unfold buildFilterObject, query_truthy.
  rewrite (truthy_text _ Htext). simpl. now rewrite Hparse.
Qed.

Lemma invalid_text_raises_witness :
  buildFilterObject (QueryText "[1,") = Throw InvalidFilterFormat.
Proof.
  apply (proj1 invalid_text_raises).
  - discriminate.
  - reflexivity.
Defined.

(** C8. On a well-formed JSON text [buildFilterObject] returns what
    [JSON.parse] makes of the text, as it is. *)
Theorem valid_text_is_parsed (text : string) (parsedFilter : JSValue) :
  JSON.parse text = Some parsedFilter ->
  buildFilterObject (QueryText text) = Return parsedFilter.
Proof.
  intros Hparse. destruct text as [|c rest].
  - rewrite JSON_parse_empty in Hparse. discriminate.
  - unfold buildFilterObject. simpl. now rewrite Hparse.
Qed.

Lemma valid_text_is_parsed_witness :
  buildFilterObject (QueryText "[true, null]")
  = Return (VArray [VBoolean true; VNull]).
Proof. apply valid_text_is_parsed. reflexivity. Defined.

(** C9. [buildFilterObject] returns an empty mapping for an undefined, a
    null and an empty filter query. *)
Theorem absent_query_is_empty_mapping :
  buildFilterObject QueryUndefined = Return (object []) /\
  buildFilterObject QueryNull = Return (object []) /\
  buildFilterObject (QueryText "") = Return (object []).
Proof. repeat split. Qed.

(** C10. On a text that [JSON.parse] reads as a scalar, a Number, a
    boolean, null or a text, [buildFilterObject] returns that scalar
    itself, which is no mapping; [5], [true] and [null] are such texts. *)
Theorem scalar_text_returns_scalar (text : string) (v : JSValue) :
  JSON.parse text = Some v -> scalar v = true ->
  buildFilterObject (QueryText text) = Return v /\ ~ ordinary v.
Proof.
  intros Hparse Hscalar. split.
  - now apply buildFilterObject_parsed.
  - intros (prototype & props & ->). discriminate.
Qed.

Lemma scalar_text_returns_scalar_witness :
  (buildFilterObject (QueryText "5") = Return (VNumber (Num.of_Z 5))
   /\ ~ ordinary (VNumber (Num.of_Z 5)))
  /\ (buildFilterObject (QueryText "true") = Return (VBoolean true)
      /\ ~ ordinary (VBoolean true))
  /\ (buildFilterObject (QueryText "null") = Return VNull
      /\ ~ ordinary VNull).
Proof.
  repeat apply conj.
  - apply (scalar_text_returns_scalar "5"); reflexivity.
  - apply (scalar_text_returns_scalar "5"); reflexivity.
  - apply (scalar_text_returns_scalar "true"); reflexivity.
  - apply (scalar_text_returns_scalar "true"); reflexivity.
  - apply (scalar_text_returns_scalar "null"); reflexivity.
  - apply (scalar_text_returns_scalar "null"); reflexivity.
Defined.

(** * Further properties of the three functions *)

(** ** Braces, commas and trimming *)

Lemma append_nil_r (s : string) : s ++ "" = s.
Proof. induction s as [|c s IH]; simpl; [reflexivity | now rewrite IH]. Qed.

Lemma append_assoc (s t u : string) : (s ++ t) ++ u = s ++ t ++ u.
Proof. induction s as [|c s IH]; simpl; [reflexivity | now rewrite IH]. Qed.

Lemma rev_append_app (s t acc : string) :
  Str.rev_append (s ++ t) acc = Str.rev_append t (Str.rev_append s acc).
Proof. revert acc. induction s as [|c s IH]; simpl; auto. Qed.

Lemma rev_append_twice (s a b : string) :
  Str.rev_append (Str.rev_append s a) b = Str.rev_append a (s ++ b).
Proof.
  revert a. induction s as [|c s IH]; intros a; simpl; [reflexivity|].
  now rewrite IH.
Qed.

Lemma rev_involutive (s : string) : Str.rev (Str.rev s) = s.
Proof. unfold Str.rev. rewrite rev_append_twice. simpl. apply append_nil_r. Qed.

Lemma rev_snoc (s : string) (c : ascii) :
  Str.rev (s ++ String c "") = String c (Str.rev s).
Proof. unfold Str.rev. now rewrite rev_append_app. Qed.

(** Trimming stops at a brace, on either side. *)
Lemma dropWhite_open (rest : string) :
  Str.dropWhite false (String "{" rest) = String "{" rest.
Proof. destruct rest as [|b [|c rest]]; reflexivity. Qed.

Lemma dropWhite_close (rest : string) :
  Str.dropWhite true (String "}" rest) = String "}" rest.
Proof.
  destruct rest as [|b [|c rest]]; try reflexivity.
  - cbn [Str.dropWhite]. unfold Str.white2. simpl.
    now rewrite andb_false_r.
  - cbn [Str.dropWhite]. unfold Str.white2, Str.white3. simpl.
    now rewrite !andb_false_r.
Qed.

Lemma trim_braced (body : string) :
  Str.trim ("{" ++ body ++ "}") = "{" ++ body ++ "}".
Proof.
  unfold Str.trim, Str.trimStart, Str.trimEnd. simpl append.
  rewrite dropWhite_open.
  change (String "{" (body ++ "}")) with (String "{" body ++ "}").
  rewrite rev_snoc, dropWhite_close, <- rev_snoc. apply rev_involutive.
Qed.

Lemma replace_trailing_brace_snoc (body : string) :
  Str.replace_trailing_brace (body ++ "}") = body.
Proof.
  induction body as [|c body IH]; [reflexivity|].
  simpl append. cbn [Str.replace_trailing_brace].
  destruct (body ++ "}") eqn:E.
  - destruct body; discriminate.
  - now rewrite IH.
Qed.

Section Format.

Variable Date_parse : string -> option Z.

(** On every text the result is the loop run over the pairs of the text;
    the two early returns agree with it. *)
Lemma stringToObject_pairs (s : string) :
  stringToObject Date_parse (VString s)
  = Return (fold_left (parse_pair Date_parse) (pairs_of s) (object [])).
Proof.
  unfold stringToObject.
  destruct (negb (ToBoolean (VString s)) || (s =? "{}")) eqn:E.
  - now rewrite (pairs_of_trivial _ E).
  - reflexivity.
Qed.

Lemma pairs_of_braced (body : string) :
  pairs_of ("{" ++ body ++ "}") = Str.split "," body.
Proof.
  unfold pairs_of. rewrite trim_braced. simpl append.
  cbn [Str.replace_leading_brace]. now rewrite replace_trailing_brace_snoc.
Qed.

(** X1. The braces are optional: a text that is already trimmed and has no
    brace of its own at either end parses as the same text between
    braces. *)
Theorem braces_optional (body : string) :
  Str.trim body = body ->
  Str.replace_leading_brace body = body ->
  Str.replace_trailing_brace body = body ->
  stringToObject Date_parse (VString ("{" ++ body ++ "}"))
  = stringToObject Date_parse (VString body).
Proof.
  intros Htrim Hopen Hclose.
  rewrite !stringToObject_pairs, pairs_of_braced.
  unfold pairs_of. now rewrite Htrim, Hopen, Hclose.
Qed.

End Format.

Lemma braces_optional_witness :
  stringToObject ISODate.parse (VString ("{" ++ "a=1,b=x" ++ "}"))
  = stringToObject ISODate.parse (VString "a=1,b=x").
Proof. apply braces_optional; reflexivity. Defined.

Lemma split_app_any (sep : ascii) (a b : string) :
  Str.split sep (a ++ String sep b)
  = (Str.split sep a ++ Str.split sep b)%list.
Proof.
  induction a as [|c a IH]; simpl.
  - now rewrite Ascii.eqb_refl.
  - rewrite IH. destruct (Ascii.eqb c sep); [reflexivity|].
    now destruct (split_cons sep a) as (item & items & ->).
Qed.

Lemma includes_app (c : ascii) (a b : string) :
  Str.includes c (a ++ b) = Str.includes c a || Str.includes c b.
Proof.
  induction a as [|d a IH]; simpl; [reflexivity|].
  now rewrite IH, orb_assoc.
Qed.

Lemma pair_key_not_empty (pair key : string) :
  pair_key pair = Some key -> key <> "".
Proof.
  unfold pair_key.
  destruct (map Str.trim (Str.split "=" pair)) as [|k [|v more]];
    try discriminate.
  destruct (ToBoolean (VString k)) eqn:E; [|discriminate].
  destruct (ToBoolean (VString v)); intros [= <-]. intros ->. discriminate.
Qed.

(** A new property on an object without properties is its only one. *)
Lemma Set_empty (key : string) (v : JSValue) :
  key <> "__proto__" -> Obj.Set_ (object []) key v = object [(key, v)].
Proof.
  intros H. apply String.eqb_neq in H. unfold object. simpl. rewrite H.
  simpl. unfold Obj.define. simpl. now destruct (Obj.array_index key).
Qed.

Section Pairs.

Variable Date_parse : string -> option Z.

(** X2. Parsing goes through the text from left to right, comma by comma:
    what follows a comma is parsed into the mapping of what precedes
    it. *)
Theorem comma_continues (a b : string) (mapping : JSValue) :
  stringToObject Date_parse (VString ("{" ++ a ++ "}")) = Return mapping ->
  stringToObject Date_parse (VString ("{" ++ a ++ "," ++ b ++ "}"))
  = Return (fold_left (parse_pair Date_parse) (Str.split "," b) mapping).
Proof.
  rewrite !stringToObject_pairs, pairs_of_braced. intros [= <-].
  replace ("{" ++ a ++ "," ++ b ++ "}") with ("{" ++ (a ++ "," ++ b) ++ "}")
    by (simpl; now rewrite append_assoc).
  rewrite pairs_of_braced. simpl append.
  now rewrite split_app_any, fold_left_app.
Qed.

(** X3. One pair: a key and a value without comma or [=], neither empty
    once trimmed, the key not [__proto__], parse to the mapping of the
    trimmed key alone, holding the entry of the trimmed value. *)
Theorem single_pair (k v : string) (assigned : JSValue) :
  Str.includes "," k = false -> Str.includes "," v = false ->
  Str.includes "=" k = false -> Str.includes "=" v = false ->
  Str.trim k <> "" -> Str.trim v <> "" -> Str.trim k <> "__proto__" ->
  entry Date_parse (Str.trim v) = Some assigned ->
  stringToObject Date_parse (VString ("{" ++ k ++ "=" ++ v ++ "}"))
  = Return (object [(Str.trim k, assigned)]).
Proof.
  intros Hck Hcv Hek Hev Hk Hv Hproto Hentry.
  replace ("{" ++ k ++ "=" ++ v ++ "}") with ("{" ++ (k ++ "=" ++ v) ++ "}")
    by (simpl; now rewrite append_assoc).
  rewrite stringToObject_pairs, pairs_of_braced.
  rewrite split_without
    by (rewrite includes_app; simpl; now rewrite Hck, Hcv).
  cbn [fold_left]. unfold parse_pair. cbn [append].
  rewrite (split_app "=" k _ Hek), (split_without "=" v Hev). cbn [map].
  rewrite (truthy_text _ Hk), (truthy_text _ Hv), Hentry. cbn [andb].
  now rewrite Set_empty.
Qed.

(** The own keys of the loop's result are those it started with and the
    keys of the pairs. *)
Lemma own_keys_pairs (pairs : list string) (result : JSValue)
  (key : string) :
  In key (Obj.own_keys (fold_left (parse_pair Date_parse) pairs result)) ->
  In key (Obj.own_keys result)
  \/ exists pair, In pair pairs /\ pair_key pair = Some key.
Proof.
  revert result. induction pairs as [|pair pairs IH]; simpl; auto.
  intros result H. apply IH in H as [H|(p & Hin & Hp)]; [|eauto].
  pose proof (parse_pair_pair_key Date_parse result pair) as Hpair.
  destruct (pair_key pair) as [k|] eqn:E.
  - destruct Hpair as [assigned Hpair]. rewrite Hpair in H.
    apply own_keys_Set in H as [->|H]; eauto.
  - rewrite Hpair in H. auto.
Qed.

(** X4. Every own key of the mapping a text parses to is the trimmed,
    non-empty first item of one of its pairs: the parser invents no
    key. *)
Theorem parsed_keys_from_pairs (s : string) (mapping : JSValue)
  (key : string) :
  stringToObject Date_parse (VString s) = Return mapping ->
  In key (Obj.own_keys mapping) ->
  key <> "" /\
  exists pair a rest,
    In pair (pairs_of s) /\ Str.split "=" pair = a :: rest /\
    key = Str.trim a.
Proof.
  rewrite stringToObject_pairs. intros [= <-] H.
  apply own_keys_pairs in H as [[]|(pair & Hin & Hkey)].
  split; [eapply pair_key_not_empty; eauto|].
  exists pair. unfold pair_key in Hkey.
  destruct (Str.split "=" pair) as [|a [|b rest]] eqn:E; try discriminate.
  exists a, (b :: rest). repeat split; auto.
  simpl in Hkey. destruct (_ && _); now inversion Hkey.
Qed.

(** Pairs with keys other than [__proto__] keep a plain object plain. *)
Lemma plain_pairs (pairs : list string) (props : Properties) :
  (forall pair, In pair pairs -> pair_key pair <> Some "__proto__") ->
  exists props',
    fold_left (parse_pair Date_parse) pairs (object props) = object props'.
Proof.
  revert props. induction pairs as [|pair pairs IH]; simpl; eauto.
  intros props Hpairs.
  pose proof (parse_pair_pair_key Date_parse (object props) pair) as Hpair.
  destruct (pair_key pair) as [k|] eqn:E.
  - destruct Hpair as [assigned ->].
    assert (k <> "__proto__") as Hk
      by (intros ->; apply (Hpairs pair); auto).
    apply String.eqb_neq in Hk. unfold object. simpl. rewrite Hk. simpl.
    destruct (Obj.has_own props k); apply IH; auto.
  - rewrite Hpair. apply IH; auto.
Qed.

(** X5. A text none of whose pairs has the key [__proto__] parses to a
    plain object: its prototype is [Object.prototype], and a [for-in] over
    it visits its own keys and nothing else. *)
Theorem no_proto_pair_plain (s : string) :
  (forall pair, In pair (pairs_of s) -> pair_key pair <> Some "__proto__") ->
  exists props,
    stringToObject Date_parse (VString s) = Return (object props) /\
    Obj.for_in (object props) = Obj.keys props.
Proof.
  intros H. destruct (plain_pairs (pairs_of s) [] H) as [props Hprops].
  exists props. rewrite stringToObject_pairs, Hprops.
  split; [reflexivity|]. simpl. apply app_nil_r.
Qed.

End Pairs.

Lemma comma_continues_witness :
  stringToObject ISODate.parse
    (VString ("{" ++ "a=1" ++ "," ++ "a=2,b=x" ++ "}"))
  = Return (fold_left (parse_pair ISODate.parse) (Str.split "," "a=2,b=x")
              (object [("a", VNumber (Num.of_Z 1))])).
Proof. apply comma_continues. reflexivity. Defined.

Lemma single_pair_witness :
  stringToObject ISODate.parse
    (VString ("{" ++ " age " ++ "=" ++ " 30 " ++ "}"))
  = Return (object [(Str.trim " age ", VNumber (Num.of_Z 30))]).
Proof. apply single_pair; try reflexivity; discriminate. Defined.

Lemma parsed_keys_from_pairs_witness :
  "b" <> "" /\
  exists pair a rest,
    In pair (pairs_of "{a=1, b =x}") /\ Str.split "=" pair = a :: rest /\
    "b" = Str.trim a.
Proof.
  apply (parsed_keys_from_pairs ISODate.parse "{a=1, b =x}"
           (object [("a", VNumber (Num.of_Z 1)); ("b", VString "x")])).
  - reflexivity.
  - simpl. auto.
Defined.

Lemma no_proto_pair_plain_witness :
  exists props,
    stringToObject ISODate.parse (VString "{a=1,b=lt:2}")
    = Return (object props) /\
    Obj.for_in (object props) = Obj.keys props.
Proof.
  apply no_proto_pair_plain.
  intros pair [<-|[<-|[]]]; discriminate.
Defined.

(** ** What the functions throw *)

Section Throwing.

Variable Date_parse : string -> option Z.
Variable Call : string -> JSValue -> list JSValue -> Result JSValue.

(** Where [stringToObject] throws, and what. *)
Lemma stringToObject_Throw (str : JSValue) (e : Exception) :
  stringToObject Date_parse str = Throw e <->
  e = TypeError "str.trim is not a function" /\
  (str = VBoolean true
   \/ (exists n, str = VNumber n /\ Num.truthy n = true)
   \/ exists name, str = VFunction name).
Proof.
  split.
  - destruct str as [| |[|]|n|s|name|tv|elements|prototype props];
      try (intros H; discriminate H).
    + intros [= <-]. split; [reflexivity | now left].
    + unfold stringToObject. simpl.
      destruct (Num.truthy n) eqn:E; simpl; [|discriminate].
      intros [= <-]. split; [reflexivity | right; left; eauto].
    + rewrite stringToObject_pairs. discriminate.
    + intros [= <-]. split; [reflexivity | right; right; eauto].
  - intros [-> [->|[(n & -> & Hn)|(name & ->)]]]; try reflexivity.
    unfold stringToObject. simpl. now rewrite Hn.
Qed.

(** X6. [stringToObject] throws on the truthy values that are neither text
    nor object, for want of a [trim] method: [true], a Number other than
    zero and NaN, a function.  It throws a TypeError, and on no other
    value. *)
Theorem stringToObject_throws (str : JSValue) (e : Exception) :
  stringToObject Date_parse str = Throw e <->
  e = TypeError "str.trim is not a function" /\
  (str = VBoolean true
   \/ (exists n, str = VNumber n /\ Num.truthy n = true)
   \/ exists name, str = VFunction name).
Proof. apply stringToObject_Throw. Qed.

(** Where [validateFilterFields] throws, and what: where
    [stringToObject] does, or at the first key of the parsed filter for
    which the call of [schema.obj.hasOwnProperty] throws. *)
Lemma validateFilterFields_Throw (filter : JSValue) (schema : Schema)
  (e : Exception) :
  validateFilterFields Date_parse Call filter schema = Throw e <->
  (e = TypeError "str.trim is not a function" /\
   (filter = VBoolean true
    \/ (exists n, filter = VNumber n /\ Num.truthy n = true)
    \/ exists name, filter = VFunction name))
  \/ exists filterObject before key after,
       stringToObject Date_parse filter = Return filterObject /\
       Obj.for_in filterObject = (before ++ key :: after)%list /\
       (forall k, In k before ->
                  exists own, hasOwnProperty Call schema k = Return own) /\
       hasOwnProperty Call schema key = Throw e.
Proof.
  unfold validateFilterFields.
  destruct (stringToObject Date_parse filter) as [filterObject|e'] eqn:Hparse.
  - rewrite for_each_Throw. split.
    + intros (before & key & after & H). right.
      exists filterObject, before, key, after. tauto.
    + intros [H|(mapping & before & key & after & [= <-] & H)].
      * apply stringToObject_Throw in H. congruence.
      * exists before, key, after. tauto.
  - split.
    + intros [= ->]. left. now apply stringToObject_Throw.
    + intros [H|(mapping & before & key & after & H & _)];
        [|discriminate].
      apply stringToObject_Throw in H. congruence.
Qed.

(** With the built-in method, only where [stringToObject] does. *)
Lemma validateFilterFields_Throw_builtin (filter : JSValue)
  (schema : Schema) (e : Exception) :
  Obj.lookup "hasOwnProperty" (obj schema) = None ->
  validateFilterFields Date_parse Call filter schema = Throw e <->
  e = TypeError "str.trim is not a function" /\
  (filter = VBoolean true
   \/ (exists n, filter = VNumber n /\ Num.truthy n = true)
   \/ exists name, filter = VFunction name).
Proof.
  intros Hmethod. rewrite validateFilterFields_Throw. split; [|tauto].
  intros [H|(mapping & before & key & after & _ & _ & _ & H)];
    [assumption|].
  rewrite hasOwnProperty_builtin in H by assumption. discriminate.
Qed.

(** X7. What [stringToObject] returns it returns again when given it: the
    result is always an object, so a second pass, and the validation of
    the result in place of the input, change nothing. *)
Theorem stringToObject_idempotent (str mapping : JSValue) :
  stringToObject Date_parse str = Return mapping ->
  stringToObject Date_parse mapping = Return mapping /\
  forall schema,
    validateFilterFields Date_parse Call mapping schema
    = validateFilterFields Date_parse Call str schema.
Proof.
  intros H.
  assert (stringToObject Date_parse mapping = Return mapping) as Hagain.
  { destruct str as [| |[|]|n|s|name|tv|elements|prototype props];
      try (injection H as <-; reflexivity); try discriminate.
    - unfold stringToObject in H. simpl in H.
      destruct (Num.truthy n); simpl in H; [discriminate|].
      now injection H as <-.
    - destruct (stringToObject_text Date_parse s)
        as (m & Hs & prototype & props & -> & _).
      rewrite Hs in H. now injection H as <-. }
  split; [assumption|].
  intros schema. unfold validateFilterFields. now rewrite H, Hagain.
Qed.

(** X8. [validateFilterFields] throws where [stringToObject] does, on
    [true], on a Number other than zero and NaN and on a function, the
    TypeError for want of [trim]; and at the first key of the parsed
    filter for which the call [schema.obj.hasOwnProperty(key)] throws,
    what that call throws.  So for a schema with no path named
    [hasOwnProperty] it throws on those three kinds of filter only; and
    for a schema whose path of that name holds no function it throws a
    TypeError on every filter that has a key to visit. *)
Theorem validateFilterFields_throws (filter : JSValue) (schema : Schema) :
  (forall e,
      validateFilterFields Date_parse Call filter schema = Throw e <->
      (e = TypeError "str.trim is not a function" /\
       (filter = VBoolean true
        \/ (exists n, filter = VNumber n /\ Num.truthy n = true)
        \/ exists name, filter = VFunction name))
      \/ exists filterObject before key after,
           stringToObject Date_parse filter = Return filterObject /\
           Obj.for_in filterObject = (before ++ key :: after)%list /\
           (forall k, In k before ->
                      exists own,
                        hasOwnProperty Call schema k = Return own) /\
           hasOwnProperty Call schema key = Throw e)
  /\ (Obj.lookup "hasOwnProperty" (obj schema) = None ->
      forall e,
        validateFilterFields Date_parse Call filter schema = Throw e <->
        e = TypeError "str.trim is not a function" /\
        (filter = VBoolean true
         \/ (exists n, filter = VNumber n /\ Num.truthy n = true)
         \/ exists name, filter = VFunction name))
  /\ (forall field filterObject key keys,
         Obj.lookup "hasOwnProperty" (obj schema) = Some field ->
         typeof field <> "function" ->
         stringToObject Date_parse filter = Return filterObject ->
         Obj.for_in filterObject = key :: keys ->
         validateFilterFields Date_parse Call filter schema
         = Throw (TypeError "schema.obj.hasOwnProperty is not a function")).
Proof.
  split; [|split].
  - intros e. apply validateFilterFields_Throw.
  - intros Hmethod e. now apply validateFilterFields_Throw_builtin.
  - intros field filterObject key keys Hmethod Hfield Hparse Hkeys.
    apply validateFilterFields_Throw. right.
    exists filterObject, [], key, keys. repeat split; auto.
    + intros k [].
    + eapply hasOwnProperty_not_callable; eauto.
Qed.

(** X9. An empty filter, that is a falsy value or the text [{}], is
    validated to the empty mapping without a warning, whatever the
    schema. *)
Theorem empty_filter_validated (filter : JSValue) (schema : Schema) :
  ToBoolean filter = false \/ filter = VString "{}" ->
  validateFilterFields Date_parse Call filter schema
  = Return (object [], []).
Proof.
  intros [H| ->]; [|reflexivity].
  unfold validateFilterFields, stringToObject. now rewrite H.
Qed.

End Throwing.

Lemma stringToObject_throws_witness :
  stringToObject ISODate.parse (VNumber (Num.of_Z 5))
  = Throw (TypeError "str.trim is not a function").
Proof.
  apply stringToObject_throws. split; [reflexivity|].
  right. left. eexists. split; reflexivity.
Defined.

Lemma stringToObject_idempotent_witness :
  stringToObject ISODate.parse (object [("a", VString "b")])
  = Return (object [("a", VString "b")]) /\
  forall schema,
    validateFilterFields ISODate.parse Host.call
      (object [("a", VString "b")]) schema
    = validateFilterFields ISODate.parse Host.call (VString "{a=b}") schema.
Proof.
  apply (stringToObject_idempotent ISODate.parse Host.call
           (VString "{a=b}")).
  reflexivity.
Defined.

Lemma validateFilterFields_throws_witness :
  validateFilterFields ISODate.parse Host.call (VBoolean true)
    Examples.schema
  = Throw (TypeError "str.trim is not a function")
  /\ validateFilterFields ISODate.parse Host.call (VString "{name=Bob}")
       {| obj := [("name", object [("q", VBoolean true)]);
                  ("hasOwnProperty", VBoolean true)] |}
     = Throw (TypeError "schema.obj.hasOwnProperty is not a function").
Proof.
  split.
  - apply (validateFilterFields_throws ISODate.parse Host.call
             (VBoolean true) Examples.schema); [reflexivity|].
    split; [reflexivity | now left].
  - apply (validateFilterFields_throws ISODate.parse Host.call
             (VString "{name=Bob}")
             {| obj := [("name", object [("q", VBoolean true)]);
                        ("hasOwnProperty", VBoolean true)] |})
      with (field := VBoolean true)
           (filterObject := object [("name", VString "Bob")])
           (key := "name") (keys := []);
      [reflexivity | discriminate | reflexivity | reflexivity].
Defined.

Lemma empty_filter_validated_witness :
  validateFilterFields ISODate.parse Host.call VNull Examples.schema
  = Return (object [], []).
Proof. apply empty_filter_validated. now left. Defined.

(** ** What [validateFilterFields] keeps *)

Lemma ordinary_Set (o : JSValue) (key : string) (v : JSValue) :
  ordinary o -> ordinary (Obj.Set_ o key v).
Proof.
  intros (prototype & props & ->). unfold ordinary. simpl.
  destruct (Obj.has_own props key); [eauto|].
  destruct ((key =? "__proto__") && Obj.reaches_proto_accessor prototype);
    [destruct (Obj.is_object_or_null v)|]; eauto.
Qed.

Lemma lookup_keys (key : string) (v : JSValue) (props : Properties) :
  Obj.lookup key props = Some v -> In key (Obj.keys props).
Proof.
  induction props as [|[k w] rest IH]; simpl; [discriminate|].
  destruct (k =? key) eqn:E; [|auto].
  apply String.eqb_eq in E. auto.
Qed.

Lemma holds_own_key (o : JSValue) (key : string) (v : JSValue) :
  holds o key v -> In key (Obj.own_keys o).
Proof. intros (prototype & props & -> & H). simpl. eauto using lookup_keys. Qed.

Section Kept.

Variable Date_parse : string -> option Z.
Variable Call : string -> JSValue -> list JSValue -> Result JSValue.
Variable schema : Schema.
Variable filterObject : JSValue.

(** A key the loop copies holds the filter's value at the end, whatever
    else is copied. *)
Lemma holds_copied (key : string) (keys : list string)
  (sanitizedFilter : JSValue) :
  key <> "__proto__" -> ordinary sanitizedFilter ->
  In key keys
  \/ holds sanitizedFilter key (Obj.Get filterObject key) ->
  holds (fold_left (copy filterObject) keys sanitizedFilter) key
    (Obj.Get filterObject key).
Proof.
  intros Hproto. revert sanitizedFilter.
  induction keys as [|k keys IH]; intros sanitizedFilter Hord H; simpl.
  - now destruct H.
  - apply IH; [now apply ordinary_Set|].
    destruct (String.eqb_spec k key) as [->|Hk].
    + right. now apply holds_Set.
    + destruct H as [[?|?]|?]; [congruence | auto |].
      right. apply holds_Set_other; auto.
Qed.

(** A timestamp passes whenever the call of the method returns. *)
Lemma passes_timestamp (key : string) (own : bool) :
  is_timestamp key = true ->
  hasOwnProperty Call schema key = Return own ->
  passes Call schema key = true /\ warns Call schema key = false.
Proof.
  intros Hts Hown. unfold passes, warns, queryable.
  now rewrite Hown, Hts, !orb_true_r.
Qed.

(** X10. When the call returns, a key of the parsed filter that passes
    both tests, other than [__proto__], is an own key of the result, with
    the very value the filter has for it: nothing that is allowed is lost
    or altered.  The call does return once the filter is parsed, for a
    schema with no path named [hasOwnProperty]. *)
Theorem allowed_key_copied (filter : JSValue) (key : string) :
  stringToObject Date_parse filter = Return filterObject ->
  In key (Obj.for_in filterObject) ->
  passes Call schema key = true ->
  key <> "__proto__" ->
  (forall sanitizedFilter console,
      validateFilterFields Date_parse Call filter schema
      = Return (sanitizedFilter, console) ->
      In key (Obj.own_keys sanitizedFilter) /\
      Obj.Get sanitizedFilter key = Obj.Get filterObject key)
  /\ (Obj.lookup "hasOwnProperty" (obj schema) = None ->
      exists sanitizedFilter console,
        validateFilterFields Date_parse Call filter schema
        = Return (sanitizedFilter, console)).
Proof.
  intros Hparse Hin Hpass Hproto. split.
  - intros sanitizedFilter console Hcall.
    destruct (validateFilterFields_returned _ _ _ _ _ _ Hparse Hcall)
      as [Hstate _].
    injection Hstate as -> _.
    assert (holds
              (fold_left (copy filterObject)
                 (List.filter (passes Call schema) (Obj.for_in filterObject))
                 (object []))
              key (Obj.Get filterObject key)) as H.
    { apply holds_copied; auto.
      - unfold ordinary, object. eauto.
      - left. apply filter_In. auto. }
    split; [eapply holds_own_key; eauto | now apply holds_Get].
  - intros Hmethod. do 2 eexists.
    exact (validateFilterFields_builtin _ _ _ _ _ Hmethod Hparse).
Qed.

(** X11. [createdAt] and [updatedAt] need no path in the schema: when the
    call returns and the parsed filter has one of them, the result has it
    too, with the filter's value, and the console never names it.  They
    do need the call [schema.obj.hasOwnProperty(key)], which comes first,
    to return: the call returns for a schema with no path named
    [hasOwnProperty], and throws when that call throws for the
    timestamp. *)
Theorem timestamp_always_kept (filter : JSValue) (key : string) :
  stringToObject Date_parse filter = Return filterObject ->
  In key (Obj.for_in filterObject) ->
  key = "createdAt" \/ key = "updatedAt" ->
  (forall sanitizedFilter console,
      validateFilterFields Date_parse Call filter schema
      = Return (sanitizedFilter, console) ->
      Obj.Get sanitizedFilter key = Obj.Get filterObject key /\
      ~ In (not_queryable key) console)
  /\ (Obj.lookup "hasOwnProperty" (obj schema) = None ->
      exists sanitizedFilter console,
        validateFilterFields Date_parse Call filter schema
        = Return (sanitizedFilter, console))
  /\ (forall e,
         hasOwnProperty Call schema key = Throw e ->
         exists e', validateFilterFields Date_parse Call filter schema
                    = Throw e').
Proof.
  intros Hparse Hin Hkey.
  assert (is_timestamp key = true) as Hts
    by (destruct Hkey as [->| ->]; reflexivity).
  split; [|split].
  - intros sanitizedFilter console Hcall.
    destruct (validateFilterFields_returned _ _ _ _ _ _ Hparse Hcall)
      as [Hstate Hkeys].
    injection Hstate as -> ->.
    destruct (Hkeys key Hin) as [own Hown].
    destruct (passes_timestamp key own Hts Hown) as [Hpass Hwarn].
    split.
    + apply holds_Get, holds_copied.
      * destruct Hkey as [->| ->]; discriminate.
      * unfold ordinary, object. eauto.
      * left. apply filter_In. auto.
    + intros H. apply in_map_iff in H as (k & Heq & H).
      apply not_queryable_inj in Heq as ->.
      apply filter_In in H as [_ H]. congruence.
  - intros Hmethod. do 2 eexists.
    exact (validateFilterFields_builtin _ _ _ _ _ Hmethod Hparse).
  - intros e He.
    destruct (validateFilterFields Date_parse Call filter schema)
      as [[sanitizedFilter console]|e'] eqn:Hcall; [|eauto].
    destruct (validateFilterFields_returned _ _ _ _ _ _ Hparse Hcall)
      as [_ Hkeys].
    destruct (Hkeys key Hin) as [own Hown]. congruence.
Qed.

(** X12. Every line of the console names a key of the parsed filter for
    which [schema.obj.hasOwnProperty(key)] answered yes and the second
    test failed; there are no more lines than the filter has keys.  For a
    schema with no path named [hasOwnProperty] the key named is a path of
    the schema. *)
Theorem console_names_schema_keys (filter : JSValue)
  (sanitizedFilter : JSValue) (console : Console) :
  validateFilterFields Date_parse Call filter schema
  = Return (sanitizedFilter, console) ->
  stringToObject Date_parse filter = Return filterObject ->
  (forall line,
      In line console ->
      exists key,
        line = not_queryable key /\
        In key (Obj.for_in filterObject) /\
        hasOwnProperty Call schema key = Return true /\
        queryable schema key = false /\
        passes Call schema key = false /\
        (Obj.lookup "hasOwnProperty" (obj schema) = None ->
         Obj.has_own (obj schema) key = true))
  /\ length console <= length (Obj.for_in filterObject).
Proof.
  intros Hcall Hparse.
  destruct (validateFilterFields_returned _ _ _ _ _ _ Hparse Hcall)
    as [Hstate _].
  injection Hstate as _ ->. split.
  - intros line H. apply in_map_iff in H as (key & <- & H).
    apply filter_In in H as [Hin H]. exists key.
    unfold warns in H. unfold passes.
    destruct (hasOwnProperty Call schema key) as [own|e] eqn:Hown;
      [|discriminate].
    apply andb_true_iff in H as [Hknown Hfails].
    apply negb_true_iff in Hfails. rewrite Hfails, andb_false_r.
    assert (own = true) as ->.
    { unfold queryable in Hfails.
      apply orb_false_iff in Hfails as [_ Hts]. rewrite Hts in Hknown.
      now rewrite orb_false_r in Hknown. }
    repeat split; auto.
    intros Hmethod. rewrite hasOwnProperty_builtin in Hown by assumption.
    now injection Hown.
  - rewrite length_map. apply filter_length_le.
Qed.

End Kept.

Lemma allowed_key_copied_witness :
  (In "name" (Obj.own_keys (object [("name", VString "Bob")])) /\
   Obj.Get (object [("name", VString "Bob")]) "name"
   = Obj.Get Examples.filter "name")
  /\ exists sanitizedFilter console,
      validateFilterFields ISODate.parse Host.call Examples.filter
        Examples.schema
      = Return (sanitizedFilter, console).
Proof.
  destruct (allowed_key_copied ISODate.parse Host.call Examples.schema
              Examples.filter Examples.filter "name")
    as [Hcopied Hreturns];
    [reflexivity | simpl; auto | reflexivity | discriminate |].
  split.
  - apply (Hcopied _ ["Field 'age' is not queryable."]). reflexivity.
  - apply Hreturns. reflexivity.
Defined.

Lemma timestamp_always_kept_witness :
  (Obj.Get (object [("updatedAt",
                     object [("lt", VDate (Some 1704067200000%Z))])])
     "updatedAt"
   = Obj.Get (object [("updatedAt",
                       object [("lt", VDate (Some 1704067200000%Z))])])
       "updatedAt" /\
   ~ In (not_queryable "updatedAt") [])
  /\ (exists sanitizedFilter console,
         validateFilterFields ISODate.parse Host.call
           (VString "{updatedAt=lt:2024-01-01}") {| obj := [] |}
         = Return (sanitizedFilter, console))
  /\ exists e,
      validateFilterFields ISODate.parse Host.call
        (VString "{updatedAt=lt:2024-01-01}")
        {| obj := [("hasOwnProperty", VBoolean true)] |}
      = Throw e.
Proof.
  destruct (timestamp_always_kept ISODate.parse Host.call {| obj := [] |}
              (object [("updatedAt",
                        object [("lt", VDate (Some 1704067200000%Z))])])
              (VString "{updatedAt=lt:2024-01-01}") "updatedAt")
    as (Hkept & Hreturns & _); [reflexivity | simpl; auto | now right |].
  destruct (timestamp_always_kept ISODate.parse Host.call
              {| obj := [("hasOwnProperty", VBoolean true)] |}
              (object [("updatedAt",
                        object [("lt", VDate (Some 1704067200000%Z))])])
              (VString "{updatedAt=lt:2024-01-01}") "updatedAt")
    as (_ & _ & Hthrows); [reflexivity | simpl; auto | now right |].
  split; [|split].
  - apply (Hkept _ []). reflexivity.
  - apply Hreturns. reflexivity.
  - destruct (Hthrows
                (TypeError "schema.obj.hasOwnProperty is not a function"))
      as [e He]; [reflexivity|].
    now exists e.
Defined.

Lemma console_names_schema_keys_witness :
  (forall line,
      In line ["Field 'age' is not queryable."] ->
      exists key,
        line = not_queryable key /\
        In key (Obj.for_in Examples.filter) /\
        hasOwnProperty Host.call Examples.schema key = Return true /\
        queryable Examples.schema key = false /\
        passes Host.call Examples.schema key = false /\
        (Obj.lookup "hasOwnProperty" (obj Examples.schema) = None ->
         Obj.has_own (obj Examples.schema) key = true))
  /\ length ["Field 'age' is not queryable."]
     <= length (Obj.for_in Examples.filter).
Proof.
  apply (console_names_schema_keys ISODate.parse Host.call Examples.schema
           Examples.filter Examples.filter
           (object [("name", VString "Bob")])); reflexivity.
Defined.

(** ** The marker *)

Lemma text_of_pos_digits_last (fuel : nat) (n : N) (acc : string) :
  exists front,
    Obj.text_of_pos_digits (S fuel) n acc
    = front ++ String (ascii_of_N (48 + n mod 10)) acc.
Proof.
  revert n acc. induction fuel as [|fuel IH]; intros n acc.
  - exists "". simpl. now destruct (n <? 10)%N.
  - cbn [Obj.text_of_pos_digits]. destruct (n <? 10)%N.
    + now exists "".
    + destruct (IH (n / 10)%N (String (ascii_of_N (48 + n mod 10)) acc))
        as [front Hfront].
      cbn [Obj.text_of_pos_digits] in Hfront. rewrite Hfront.
      exists (front ++ String (ascii_of_N (48 + (n / 10) mod 10)) "").
      now rewrite append_assoc.
Qed.

(** No index reads [q]. *)
Lemma index_text_not_q (n : nat) : Obj.index_text n <> "q".
Proof.
  unfold Obj.index_text.
  destruct (text_of_pos_digits_last n (N.of_nat n) "") as [front ->].
  destruct front as [|c [|d front]]; cbn [append]; try discriminate.
  assert (N.of_nat n mod 10 < 10)%N as Hdigit
    by (apply N.mod_lt; discriminate).
  remember (48 + N.of_nat n mod 10)%N as digit eqn:Hd.
  intros [= H]. apply (f_equal N_of_ascii) in H.
  rewrite N_ascii_embedding in H by lia.
  change (N_of_ascii "q") with 113%N in H. lia.
Qed.

Lemma array_has_no_q (elements : list JSValue) :
  Obj.HasProperty (VArray elements) "q" = false.
Proof.
  simpl. unfold Obj.mem.
  destruct (existsb _ _) eqn:E; [|reflexivity].
  apply existsb_exists in E as (k & Hin & Hk).
  apply String.eqb_eq in Hk as <-.
  apply in_app_iff in Hin as [Hin|[Hin|[]]]; [|discriminate].
  apply in_map_iff in Hin as (n & Hn & _). now apply index_text_not_q in Hn.
Qed.

Lemma has_marker_ordinary (field : JSValue) :
  has_marker field = true -> ordinary field.
Proof.
  unfold has_marker, ordinary. intros H.
  apply andb_true_iff in H as [H Hq]. apply andb_true_iff in H as [Hb Ht].
  destruct field; try discriminate Ht; try discriminate Hb;
    try discriminate Hq; eauto.
  now rewrite array_has_no_q in Hq.
Qed.

(** X13. Only an ordinary object can carry the marker: for a path the
    schema defines by a constructor, an array, null or a primitive the
    second test holds for the timestamps only, so such a path never
    passes unless it is a timestamp.  The value under [q] plays no part:
    its presence among the own properties is enough for the second test,
    and for a schema with no path named [hasOwnProperty] the path then
    passes. *)
Theorem marker_on_objects_only
  (Call : string -> JSValue -> list JSValue -> Result JSValue)
  (schema : Schema) (key : string) (field : JSValue) :
  Obj.lookup key (obj schema) = Some field ->
  (~ ordinary field ->
   queryable schema key = is_timestamp key /\
   (is_timestamp key = false -> passes Call schema key = false))
  /\ (forall prototype props v,
         field = VObject prototype props ->
         Obj.lookup "q" props = Some v ->
         queryable schema key = true /\
         (Obj.lookup "hasOwnProperty" (obj schema) = None ->
          passes Call schema key = true)).
Proof.
  intros Hfield.
  assert (schema_field schema key = field) as Hget
    by (unfold schema_field; now rewrite Hfield).
  split.
  - intros Hplain.
    assert (has_marker field = false) as Hmarker.
    { destruct (has_marker field) eqn:E; [|reflexivity].
      now apply has_marker_ordinary in E. }
    assert (queryable schema key = is_timestamp key) as Hq
      by (unfold queryable; now rewrite Hget, Hmarker).
    split; [assumption|].
    intros Hts. unfold passes. rewrite Hq, Hts.
    destruct (hasOwnProperty Call schema key); [|reflexivity].
    apply andb_false_r.
  - intros prototype props v -> Hq.
    assert (queryable schema key = true) as Hqueryable.
    { unfold queryable, has_marker. rewrite Hget.
      cbn [ToBoolean typeof Obj.HasProperty]. unfold Obj.has_own.
      now rewrite Hq. }
    split; [assumption|].
    intros Hmethod. unfold passes.
    rewrite hasOwnProperty_builtin, Hqueryable by assumption.
    unfold Obj.has_own. now rewrite Hfield.
Qed.

Lemma marker_on_objects_only_witness :
  (queryable {| obj := [("tags", VArray [VFunction "String"]);
                        ("name", object [("q", VBoolean false)])] |} "tags"
   = is_timestamp "tags" /\
   passes Host.call
     {| obj := [("tags", VArray [VFunction "String"]);
                ("name", object [("q", VBoolean false)])] |} "tags"
   = false)
  /\ (queryable {| obj := [("tags", VArray [VFunction "String"]);
                           ("name", object [("q", VBoolean false)])] |}
        "name"
      = true /\
      passes Host.call
        {| obj := [("tags", VArray [VFunction "String"]);
                   ("name", object [("q", VBoolean false)])] |} "name"
      = true).
Proof.
  destruct (marker_on_objects_only Host.call
              {| obj := [("tags", VArray [VFunction "String"]);
                         ("name", object [("q", VBoolean false)])] |}
              "tags" (VArray [VFunction "String"]) eq_refl) as [Htags _].
  destruct (marker_on_objects_only Host.call
              {| obj := [("tags", VArray [VFunction "String"]);
                         ("name", object [("q", VBoolean false)])] |}
              "name" (object [("q", VBoolean false)]) eq_refl)
    as [_ Hname].
  split.
  - destruct Htags as [Hq Hpass].
    + intros (prototype & props & H). discriminate H.
    + split; [exact Hq | apply Hpass; reflexivity].
  - destruct (Hname None [("q", VBoolean false)] (VBoolean false))
      as [Hq Hpass]; [reflexivity | reflexivity |].
    split; [exact Hq | apply Hpass; reflexivity].
Defined.

(** ** [buildFilterObject] and what follows it *)

(** X14. On a query that is a text, [buildFilterObject] throws nothing
    but the error [Invalid filter query format], and throws it exactly
    when the text is not empty and [JSON.parse] refuses it; an undefined
    and a null query never throw. *)
Theorem buildFilterObject_throws (text : string) (e : Exception) :
  (buildFilterObject (QueryText text) = Throw e <->
   e = InvalidFilterFormat /\ text <> "" /\ JSON.parse text = None)
  /\ buildFilterObject QueryUndefined <> Throw e
  /\ buildFilterObject QueryNull <> Throw e.
Proof.
  split; [|split; discriminate].
  split.
  - destruct text as [|c text]; [discriminate|].
    unfold buildFilterObject. simpl.
    destruct (JSON.parse (String c text)) eqn:E; [discriminate|].
    intros [= <-]. split; [reflexivity | split; [discriminate | reflexivity]].
  - intros (-> & Htext & Hparse).
    unfold buildFilterObject, query_truthy.
    rewrite (truthy_text _ Htext). simpl. now rewrite Hparse.
Qed.

Lemma buildFilterObject_throws_witness :
  buildFilterObject (QueryText "{a:1}") = Throw InvalidFilterFormat.
Proof.
  apply (buildFilterObject_throws "{a:1}" InvalidFilterFormat).
  repeat split. discriminate.
Defined.

(** A text of white space alone is no JSON text. *)
Lemma JSON_parse_blank (text : string) :
  JSON.skip_ws text = "" -> JSON.parse text = None.
Proof.
  intros H. unfold JSON.parse. cbn [JSON.value]. now rewrite H.
Qed.

(** X15. The empty text is an empty filter, but a text of blanks is an
    error: on a text that is not empty and holds only JSON white space,
    [buildFilterObject] throws. *)
Theorem blank_text_raises (text : string) :
  text <> "" -> JSON.skip_ws text = "" ->
  buildFilterObject (QueryText text) = Throw InvalidFilterFormat.
Proof.
  intros Htext Hblank. unfold buildFilterObject, query_truthy.
  rewrite (truthy_text _ Htext). simpl.
  now rewrite (JSON_parse_blank _ Hblank).
Qed.

Lemma blank_text_raises_witness :
  buildFilterObject (QueryText "  ") = Throw InvalidFilterFormat.
Proof. apply blank_text_raises; [discriminate | reflexivity]. Defined.

Lemma members_object (value : string -> option (JSValue * string))
  (fuel : nat) (s : string) (props : Properties) (v : JSValue)
  (rest : string) :
  JSON.members value fuel s props = Some (v, rest) ->
  exists props', v = object props'.
Proof.
  revert s props. induction fuel as [|fuel IH]; intros s props H;
    [discriminate|].
  cbn [JSON.members] in H.
  repeat match type of H with
         | context [match ?x with _ => _ end] =>
             destruct x eqn:?; try discriminate
         end;
    first [ eapply IH; eassumption | injection H as <- _; eauto ].
Qed.

Lemma elements_array (value : string -> option (JSValue * string))
  (fuel : nat) (s : string) (acc : list JSValue) (v : JSValue)
  (rest : string) :
  JSON.elements value fuel s acc = Some (v, rest) ->
  exists items, v = VArray items.
Proof.
  revert s acc. induction fuel as [|fuel IH]; intros s acc H;
    [discriminate|].
  cbn [JSON.elements] in H.
  repeat match type of H with
         | context [match ?x with _ => _ end] =>
             destruct x eqn:?; try discriminate
         end;
    first [ eapply IH; eassumption | injection H as <- _; eauto ].
Qed.

(** [JSON.parse] makes no function. *)
Lemma value_no_function (fuel : nat) (s : string) (v : JSValue)
  (rest : string) (name : string) :
  JSON.value fuel s = Some (v, rest) -> v <> VFunction name.
Proof.
  destruct fuel as [|fuel]; [discriminate|].
  cbn [JSON.value]. unfold option_map. intros H.
  repeat match type of H with
         | context [match ?x with _ => _ end] =>
             destruct x eqn:?; try discriminate
         end;
    first
      [ apply members_object in H as [props ->]; discriminate
      | apply elements_array in H as [items ->]; discriminate
      | injection H as <- _; discriminate ].
Qed.

Lemma JSON_parse_no_function (text : string) (v : JSValue) (name : string) :
  JSON.parse text = Some v -> v <> VFunction name.
Proof.
  unfold JSON.parse.
  destruct (JSON.value _ text) as [[w rest]|] eqn:E; [|discriminate].
  destruct (JSON.skip_ws rest); [|discriminate].
  intros [= <-]. eauto using value_no_function.
Qed.

(** X16. The two functions in a row.  On a JSON scalar that
    [buildFilterObject] returned, [true] or a Number other than zero, the
    validation throws a TypeError; what else it returns, a mapping, an
    array, a text, [false], [0] or [null], is validated without throwing
    for a schema with no path named [hasOwnProperty]. *)
Theorem built_filter_validated (Date_parse : string -> option Z)
  (Call : string -> JSValue -> list JSValue -> Result JSValue)
  (filterQuery : FilterQuery) (filter : JSValue) (schema : Schema) :
  buildFilterObject filterQuery = Return filter ->
  (filter = VBoolean true
   \/ (exists n, filter = VNumber n /\ Num.truthy n = true) ->
   validateFilterFields Date_parse Call filter schema
   = Throw (TypeError "str.trim is not a function"))
  /\ (Obj.lookup "hasOwnProperty" (obj schema) = None ->
      filter <> VBoolean true ->
      (forall n, filter = VNumber n -> Num.truthy n = false) ->
      exists sanitizedFilter console,
        validateFilterFields Date_parse Call filter schema
        = Return (sanitizedFilter, console)).
Proof.
  intros Hbuilt. split.
  - intros H. apply validateFilterFields_Throw. left.
    split; [reflexivity|]. tauto.
  - intros Hmethod Htrue Hzero.
    destruct (validateFilterFields Date_parse Call filter schema)
      as [[sanitizedFilter console]|e] eqn:E; [eauto|].
    apply validateFilterFields_Throw_builtin in E
      as [_ [->|[(n & -> & Hn)|(name & ->)]]]; [| | |assumption].
    + congruence.
    + rewrite (Hzero n eq_refl) in Hn. discriminate.
    + exfalso. unfold buildFilterObject in Hbuilt.
      destruct (query_truthy filterQuery); [|discriminate].
      destruct (JSON_parse filterQuery) as [v|] eqn:P; [|discriminate].
      injection Hbuilt as ->.
      destruct filterQuery; simpl in P;
        now apply (JSON_parse_no_function _ _ name) in P.
Qed.

Lemma built_filter_validated_witness :
  validateFilterFields ISODate.parse Host.call (VNumber (Num.of_Z 5))
    Examples.schema
  = Throw (TypeError "str.trim is not a function")
  /\ exists sanitizedFilter console,
       validateFilterFields ISODate.parse Host.call
         (VArray [VBoolean true; VNull]) Examples.schema
       = Return (sanitizedFilter, console).
Proof.
  split.
  - apply (built_filter_validated ISODate.parse Host.call (QueryText "5")).
    + reflexivity.
    + right. eexists. split; reflexivity.
  - apply (built_filter_validated ISODate.parse Host.call
             (QueryText "[true, null]")).
    + reflexivity.
    + reflexivity.
    + discriminate.
    + discriminate.
Defined.

(** ** Texts without a separator *)

Lemma includes_rev_append (c : ascii) (s acc : string) :
  Str.includes c (Str.rev_append s acc)
  = Str.includes c s || Str.includes c acc.
Proof.
  revert acc. induction s as [|d s IH]; intros acc; simpl; [reflexivity|].
  rewrite IH. simpl. now destruct (Ascii.eqb d c), (Str.includes c s).
Qed.

Lemma includes_rev (c : ascii) (s : string) :
  Str.includes c (Str.rev s) = Str.includes c s.
Proof. unfold Str.rev. rewrite includes_rev_append. apply orb_false_r. Qed.

(** What is left after dropping white space is an end of the text. *)
Lemma dropWhite_suffix (backwards : bool) (n : nat) (s : string) :
  String.length s <= n ->
  exists front, s = front ++ Str.dropWhite backwards s.
Proof.
  revert s. induction n as [|n IH]; intros s Hn.
  - destruct s; [now exists "" | simpl in Hn; lia].
  - destruct s as [|a [|b [|c rest]]]; cbn [Str.dropWhite].
    + now exists "".
    + destruct (Str.white1 (Str.code a)); [now exists (String a "")|].
      now exists "".
    + destruct (Str.white1 (Str.code a)).
      { destruct (IH (String b "")) as [front Hfront]; [simpl in *; lia|].
        cbn [Str.dropWhite] in Hfront. exists (String a front).
        cbn [append]. now rewrite <- Hfront. }
      destruct (if backwards then _ else _); [|now exists ""].
      now exists (String a (String b "")).
    + destruct (Str.white1 (Str.code a)).
      { destruct (IH (String b (String c rest))) as [front Hfront];
          [simpl in *; lia|].
        cbn [Str.dropWhite] in Hfront. exists (String a front).
        cbn [append]. now rewrite <- Hfront. }
      destruct (if backwards then Str.white2 _ _ else _).
      { destruct (IH (String c rest)) as [front Hfront]; [simpl in *; lia|].
        cbn [Str.dropWhite] in Hfront. exists (String a (String b front)).
        cbn [append]. now rewrite <- Hfront. }
      destruct (if backwards then Str.white3 _ _ _ else _); [|now exists ""].
      destruct (IH rest) as [front Hfront]; [simpl in *; lia|].
      exists (String a (String b (String c front))). cbn [append].
      now rewrite <- Hfront.
Qed.

Lemma includes_dropWhite (c : ascii) (backwards : bool) (s : string) :
  Str.includes c s = false ->
  Str.includes c (Str.dropWhite backwards s) = false.
Proof.
  intros H.
  destruct (dropWhite_suffix backwards (String.length s) s (le_n _))
    as [front Hfront].
  rewrite Hfront, includes_app in H. now apply orb_false_iff in H.
Qed.

(** Trimming brings in no character. *)
Lemma includes_trim (c : ascii) (s : string) :
  Str.includes c s = false -> Str.includes c (Str.trim s) = false.
Proof.
  intros H. unfold Str.trim, Str.trimEnd, Str.trimStart.
  rewrite includes_rev. apply includes_dropWhite.
  rewrite includes_rev. now apply includes_dropWhite.
Qed.

Lemma includes_replace_trailing_brace (c : ascii) (s : string) :
  Str.includes c s = false ->
  Str.includes c (Str.replace_trailing_brace s) = false.
Proof.
  induction s as [|a s IH]; [auto|].
  cbn [Str.replace_trailing_brace Str.includes]. intros H.
  apply orb_false_iff in H as [Ha Hs].
  destruct s as [|b s].
  - destruct (Ascii.eqb a "}"); simpl; [reflexivity | now rewrite Ha].
  - cbn [Str.includes]. now rewrite Ha, (IH Hs).
Qed.

Lemma includes_replace_leading_brace (c : ascii) (s : string) :
  Str.includes c s = false ->
  Str.includes c (Str.replace_leading_brace s) = false.
Proof.
  intros H.
  assert (Str.replace_leading_brace s = s
          \/ exists rest, s = String "{" rest
                          /\ Str.replace_leading_brace s = rest) as [->| E].
  { destruct s as [|a rest]; [now left|].
    destruct (Ascii.eqb_spec a "{") as [->|Ha]; [right; eauto|].
    left. unfold Str.replace_leading_brace.
    destruct a as [[] [] [] [] [] [] [] []]; try reflexivity.
    now contradiction Ha. }
  - assumption.
  - destruct E as (rest & -> & ->). simpl in H.
    now apply orb_false_iff in H.
Qed.

Lemma includes_split (c sep : ascii) (s item : string) :
  Str.includes c s = false -> In item (Str.split sep s) ->
  Str.includes c item = false.
Proof.
  revert item. induction s as [|a s IH]; intros item H Hin.
  - destruct Hin as [<-|[]]. reflexivity.
  - simpl in H. apply orb_false_iff in H as [Ha Hs].
    cbn [Str.split] in Hin. destruct (Ascii.eqb a sep).
    + destruct Hin as [<-|Hin]; [reflexivity | auto].
    + destruct (Str.split sep s) as [|first items] eqn:E;
        [destruct Hin as [<-|[]]; simpl; now rewrite Ha|].
      destruct Hin as [<-|Hin].
      * simpl. rewrite Ha. apply IH; simpl; auto.
      * apply IH; simpl; auto.
Qed.

(** The pairs of a text hold no character the text does not hold. *)
Lemma includes_pairs_of (c : ascii) (s pair : string) :
  Str.includes c s = false -> In pair (pairs_of s) ->
  Str.includes c pair = false.
Proof.
  intros H. apply includes_split.
  now apply includes_replace_trailing_brace,
    includes_replace_leading_brace, includes_trim.
Qed.

Lemma fold_left_unchanged (f : JSValue -> string -> JSValue)
  (pairs : list string) (result : JSValue) :
  (forall pair r, In pair pairs -> f r pair = r) ->
  fold_left f pairs result = result.
Proof.
  revert result. induction pairs as [|pair pairs IH]; simpl; auto.
  intros result H. rewrite H by auto. apply IH. auto.
Qed.

Lemma fold_left_agree (f g : JSValue -> string -> JSValue)
  (pairs : list string) (result : JSValue) :
  (forall pair r, In pair pairs -> f r pair = g r pair) ->
  fold_left f pairs result = fold_left g pairs result.
Proof.
  revert result. induction pairs as [|pair pairs IH]; simpl; auto.
  intros result H. rewrite H by auto. apply IH. auto.
Qed.

(** X17. A text without any [=] parses to the empty mapping: pairs that
    are no pairs are dropped without a trace. *)
Theorem no_equals_empty (Date_parse : string -> option Z) (s : string) :
  Str.includes "=" s = false ->
  stringToObject Date_parse (VString s) = Return (object []).
Proof.
  intros H. rewrite stringToObject_pairs. f_equal.
  apply fold_left_unchanged. intros pair r Hin.
  unfold parse_pair.
  now rewrite (split_without "=" pair (includes_pairs_of _ _ _ H Hin)).
Qed.

Lemma no_equals_empty_witness :
  stringToObject ISODate.parse (VString "{name: Bob, age: 30}")
  = Return (object []).
Proof. apply no_equals_empty. reflexivity. Defined.

(** A pair without colon is parsed without [Date.parse]. *)
Lemma parse_pair_without_colon (host1 host2 : string -> option Z)
  (result : JSValue) (pair : string) :
  Str.includes ":" pair = false ->
  parse_pair host1 result pair = parse_pair host2 result pair.
Proof.
  intros H. unfold parse_pair.
  destruct (Str.split "=" pair) as [|a [|b rest]] eqn:E; try reflexivity.
  cbn [map].
  assert (Str.includes ":" (Str.trim b) = false) as Hvalue.
  { apply includes_trim, (includes_split ":" "=" pair); [assumption|].
    rewrite E. simpl. auto. }
  unfold entry. now rewrite Hvalue.
Qed.

(** X18. [Date.parse] is consulted for operator values only: a text
    without any colon parses, and is validated, the same on every host;
    a date written without an operator stays what it is. *)
Theorem no_colon_host_independent (host1 host2 : string -> option Z)
  (s : string) :
  Str.includes ":" s = false ->
  stringToObject host1 (VString s) = stringToObject host2 (VString s) /\
  forall Call schema,
    validateFilterFields host1 Call (VString s) schema
    = validateFilterFields host2 Call (VString s) schema.
Proof.
  intros H.
  assert (stringToObject host1 (VString s) = stringToObject host2 (VString s))
    as Hsame.
  { rewrite !stringToObject_pairs. f_equal. apply fold_left_agree.
    intros pair r Hin. apply parse_pair_without_colon.
    eapply includes_pairs_of; eauto. }
  split; [assumption|].
  intros Call schema. unfold validateFilterFields. now rewrite Hsame.
Qed.

Lemma no_colon_host_independent_witness :
  stringToObject ISODate.parse (VString "{createdAt=2023-01-01}")
  = stringToObject (fun _ => Some 1%Z) (VString "{createdAt=2023-01-01}") /\
  forall Call schema,
    validateFilterFields ISODate.parse Call
      (VString "{createdAt=2023-01-01}") schema
    = validateFilterFields (fun _ => Some 1%Z) Call
        (VString "{createdAt=2023-01-01}") schema.
Proof. apply no_colon_host_independent. reflexivity. Defined.

(** * A mapping and its text *)





Section WrittenFilter.

Variable Date_parse : string -> option Z.







End WrittenFilter.



